(** * Repo-Monitoring-Agent: the monitoring workflow, embedded and verified

    A shallow embedding of [src/state.py], [src/github_client.py],
    [src/workflow.py], [src/config_manager.py] and the single-shot path of
    [main.py].

    Conventions of the embedding.
    - A naive [datetime], as [datetime.now()] returns it, is an integer
      count of microseconds since 0001-01-01T00:00:00; a [timedelta] is a
      difference of two of them and [timedelta.days] is the floor quotient
      by the length of a day. A timestamp that comes from outside (the
      GitHub API, a state handed in by a caller) is naive or aware of its
      time zone; Python refuses to subtract or compare the two kinds with
      [TypeError], and refuses with [OverflowError] a [timedelta] or a
      [datetime] outside its range.
    - A node assigns to the attributes of the [RepoMonitorState] object it
      is handed; that object lives in the [World], next to a log of the
      nodes entered and a log of the mails handed to SMTP.
    - Everything outside the program (the wall clock, the GitHub API, the
      SMTP server, the configuration file) is an oracle in [Env], asked with
      the number of interactions made so far.
    - [print] calls write to stdout only; they are left out, and so are
      the clock readings made only to be printed.
    - LangGraph is a library, not part of the repository: the graph built
      by [_create_workflow] is kept as data and run by a small step
      function, described where it is defined. *)

From Stdlib Require Import ZArith List String Bool Lia.
Import ListNotations.
Open Scope string_scope.
Open Scope Z_scope.

(** ** Exceptions and results *)

(** A raised Python exception: its class, whether the class derives from
    [Exception] (and so is caught by [except Exception]), and its text. *)
Record exn := {
  exn_class : string;
  exn_is_Exception : bool;
  exn_message : string
}.

Inductive Result (A : Type) : Type :=
| Ok (a : A)
| Raise (e : exn).
Arguments Ok {A} a.
Arguments Raise {A} e.

(** ** Time: [datetime] and [timedelta] *)

Module DateTime.

(** A naive datetime and a timedelta, in microseconds. *)
Definition datetime := Z.
Definition timedelta := Z.

Definition us_per_hour : Z := 3600000000.
Definition us_per_day : Z := 24 * us_per_hour.

(** The spans of [h] hours and of [d] days *)
Definition hours (h : Z) : timedelta := h * us_per_hour.
Definition of_days (d : Z) : timedelta := d * us_per_day.

(** [td.days]: timedeltas are normalised with [0 <= seconds < 86400], so
    the day count is the floor quotient, also for negative spans. *)
Definition days (td : timedelta) : Z := td / us_per_day.

(** [timedelta.max.days], and [datetime.max], 9999-12-31T23:59:59.999999 *)
Definition max_timedelta_days : Z := 999999999.
Definition max_datetime : datetime := 3652059 * us_per_day - 1.

Definition OverflowError (message : string) : exn :=
  {| exn_class := "OverflowError"; exn_is_Exception := true;
     exn_message := message |}.

Definition TypeError (message : string) : exn :=
  {| exn_class := "TypeError"; exn_is_Exception := true;
     exn_message := message |}.

(** [timedelta(hours=h)]: the constructor refuses a span whose day count
    is beyond [timedelta.min.days] or [timedelta.max.days]. The text of the
    exception names the day count; it is shortened here. *)
Definition timedelta_of_hours (h : Z) : Result timedelta :=
  if (- max_timedelta_days <=? days (hours h))
     && (days (hours h) <=? max_timedelta_days)
  then Ok (hours h)
  else Raise (OverflowError "days out of range; must have magnitude <= 999999999").

(** [a - d] with a timedelta: the result must lie between [datetime.min]
    and [datetime.max]. *)
Definition sub_timedelta (a : datetime) (d : timedelta) : Result datetime :=
  if (0 <=? a - d) && (a - d <=? max_datetime)
  then Ok (a - d)
  else Raise (OverflowError "date value out of range").

(** A [datetime] object received from outside: naive, or aware of its
    offset from UTC. The count of an aware one is that of its UTC
    instant. *)
Inductive timestamp :=
| Naive (t : datetime)
| Aware (utc : datetime).

Definition instant (s : timestamp) : datetime :=
  match s with Naive t => t | Aware t => t end.

Definition is_naive (s : timestamp) : bool :=
  match s with Naive _ => true | Aware _ => false end.

(** [now - s] for a naive [now] *)
Definition since (now : datetime) (s : timestamp) : Result timedelta :=
  match s with
  | Naive t => Ok (now - t)
  | Aware _ =>
      Raise (TypeError "can't subtract offset-naive and offset-aware datetimes")
  end.

(** [s >= t] for a naive [t] *)
Definition not_before (s : timestamp) (t : datetime) : Result bool :=
  match s with
  | Naive x => Ok (t <=? x)
  | Aware _ =>
      Raise (TypeError "can't compare offset-naive and offset-aware datetimes")
  end.

End DateTime.
Import DateTime.

(** ** The models of [state.py] *)

Record Label := { label_name : string; label_color : string }.
Record Assignee := { login : string; avatar_url : string }.

Module Issue.
Record t := {
  number : Z;
  title : string;
  state : string;
  created_at : timestamp;
  updated_at : timestamp;
  html_url : string;
  labels : list Label;
  assignees : list Assignee
}.
End Issue.

Module PullRequest.
Record t := {
  number : Z;
  title : string;
  state : string;
  merged_at : option timestamp;
  closed_at : option timestamp;
  html_url : string;
  labels : list Label;
  assignees : list Assignee
}.

(** [return self.merged_at is not None] *)
Definition is_merged (pr : t) : bool :=
  match merged_at pr with Some _ => true | None => false end.
End PullRequest.

(** Truthiness of an [Optional[datetime]]: a datetime object is always
    truthy, so only [None] is falsy. *)
Definition truthy {A : Type} (o : option A) : bool :=
  match o with Some _ => true | None => false end.

(** The dataclass [RepoMonitorState]. [open_issues] and [recent_prs] hold
    the [.dict()] forms of the models, which the nodes turn back into
    [Issue] and [PullRequest] objects by keyword unpacking, field by field;
    both forms are the one record here. *)
Record RepoMonitorState := {
  repo_owner : string;
  repo_name : string;
  github_token : string;
  issue_threshold_days : Z;
  email_recipients : list string;
  open_issues : list Issue.t;
  recent_prs : list PullRequest.t;
  last_email_sent : option datetime;
  sent_notifications : list string;
  smtp_host : string;
  smtp_port : Z;
  email_username : string;
  email_password : string;
  should_send_issue_alert : bool;
  should_send_pr_notification : bool;
  alert_issues : list Issue.t;
  notification_prs : list PullRequest.t
}.

(** Attribute assignments [state.f = v], one per attribute the workflow
    writes. *)
Definition set_open_issues (v : list Issue.t) (s : RepoMonitorState) :=
  {| repo_owner := repo_owner s; repo_name := repo_name s;
     github_token := github_token s;
     issue_threshold_days := issue_threshold_days s;
     email_recipients := email_recipients s;
     open_issues := v; recent_prs := recent_prs s;
     last_email_sent := last_email_sent s;
     sent_notifications := sent_notifications s;
     smtp_host := smtp_host s; smtp_port := smtp_port s;
     email_username := email_username s; email_password := email_password s;
     should_send_issue_alert := should_send_issue_alert s;
     should_send_pr_notification := should_send_pr_notification s;
     alert_issues := alert_issues s; notification_prs := notification_prs s |}.

Definition set_recent_prs (v : list PullRequest.t) (s : RepoMonitorState) :=
  {| repo_owner := repo_owner s; repo_name := repo_name s;
     github_token := github_token s;
     issue_threshold_days := issue_threshold_days s;
     email_recipients := email_recipients s;
     open_issues := open_issues s; recent_prs := v;
     last_email_sent := last_email_sent s;
     sent_notifications := sent_notifications s;
     smtp_host := smtp_host s; smtp_port := smtp_port s;
     email_username := email_username s; email_password := email_password s;
     should_send_issue_alert := should_send_issue_alert s;
     should_send_pr_notification := should_send_pr_notification s;
     alert_issues := alert_issues s; notification_prs := notification_prs s |}.

Definition set_last_email_sent (v : option datetime) (s : RepoMonitorState) :=
  {| repo_owner := repo_owner s; repo_name := repo_name s;
     github_token := github_token s;
     issue_threshold_days := issue_threshold_days s;
     email_recipients := email_recipients s;
     open_issues := open_issues s; recent_prs := recent_prs s;
     last_email_sent := v;
     sent_notifications := sent_notifications s;
     smtp_host := smtp_host s; smtp_port := smtp_port s;
     email_username := email_username s; email_password := email_password s;
     should_send_issue_alert := should_send_issue_alert s;
     should_send_pr_notification := should_send_pr_notification s;
     alert_issues := alert_issues s; notification_prs := notification_prs s |}.

Definition set_sent_notifications (v : list string) (s : RepoMonitorState) :=
  {| repo_owner := repo_owner s; repo_name := repo_name s;
     github_token := github_token s;
     issue_threshold_days := issue_threshold_days s;
     email_recipients := email_recipients s;
     open_issues := open_issues s; recent_prs := recent_prs s;
     last_email_sent := last_email_sent s;
     sent_notifications := v;
     smtp_host := smtp_host s; smtp_port := smtp_port s;
     email_username := email_username s; email_password := email_password s;
     should_send_issue_alert := should_send_issue_alert s;
     should_send_pr_notification := should_send_pr_notification s;
     alert_issues := alert_issues s; notification_prs := notification_prs s |}.

Definition set_should_send_issue_alert (v : bool) (s : RepoMonitorState) :=
  {| repo_owner := repo_owner s; repo_name := repo_name s;
     github_token := github_token s;
     issue_threshold_days := issue_threshold_days s;
     email_recipients := email_recipients s;
     open_issues := open_issues s; recent_prs := recent_prs s;
     last_email_sent := last_email_sent s;
     sent_notifications := sent_notifications s;
     smtp_host := smtp_host s; smtp_port := smtp_port s;
     email_username := email_username s; email_password := email_password s;
     should_send_issue_alert := v;
     should_send_pr_notification := should_send_pr_notification s;
     alert_issues := alert_issues s; notification_prs := notification_prs s |}.

Definition set_should_send_pr_notification (v : bool) (s : RepoMonitorState) :=
  {| repo_owner := repo_owner s; repo_name := repo_name s;
     github_token := github_token s;
     issue_threshold_days := issue_threshold_days s;
     email_recipients := email_recipients s;
     open_issues := open_issues s; recent_prs := recent_prs s;
     last_email_sent := last_email_sent s;
     sent_notifications := sent_notifications s;
     smtp_host := smtp_host s; smtp_port := smtp_port s;
     email_username := email_username s; email_password := email_password s;
     should_send_issue_alert := should_send_issue_alert s;
     should_send_pr_notification := v;
     alert_issues := alert_issues s; notification_prs := notification_prs s |}.

Definition set_alert_issues (v : list Issue.t) (s : RepoMonitorState) :=
  {| repo_owner := repo_owner s; repo_name := repo_name s;
     github_token := github_token s;
     issue_threshold_days := issue_threshold_days s;
     email_recipients := email_recipients s;
     open_issues := open_issues s; recent_prs := recent_prs s;
     last_email_sent := last_email_sent s;
     sent_notifications := sent_notifications s;
     smtp_host := smtp_host s; smtp_port := smtp_port s;
     email_username := email_username s; email_password := email_password s;
     should_send_issue_alert := should_send_issue_alert s;
     should_send_pr_notification := should_send_pr_notification s;
     alert_issues := v; notification_prs := notification_prs s |}.

Definition set_notification_prs (v : list PullRequest.t) (s : RepoMonitorState) :=
  {| repo_owner := repo_owner s; repo_name := repo_name s;
     github_token := github_token s;
     issue_threshold_days := issue_threshold_days s;
     email_recipients := email_recipients s;
     open_issues := open_issues s; recent_prs := recent_prs s;
     last_email_sent := last_email_sent s;
     sent_notifications := sent_notifications s;
     smtp_host := smtp_host s; smtp_port := smtp_port s;
     email_username := email_username s; email_password := email_password s;
     should_send_issue_alert := should_send_issue_alert s;
     should_send_pr_notification := should_send_pr_notification s;
     alert_issues := alert_issues s; notification_prs := v |}.

(** ** The outside world *)

(** The nodes of the graph, named as in [add_node]. *)
Inductive Node :=
| fetch_data
| analyze_issues
| analyze_prs
| send_issue_alert
| send_pr_notification
| update_state.

(** What [EmailService] is asked to deliver: the arguments of
    [send_issue_alert] and of [send_pr_notification]. Subject and HTML body
    are functions of these. *)
Inductive Mail :=
| IssueAlertMail (recipients : list string) (issues : list Issue.t)
                 (repo_name repo_url : string) (threshold_days : Z)
| PRNotificationMail (recipients : list string) (prs : list PullRequest.t)
                     (repo_name repo_url : string).

(** The PyGithub objects the client reads. They carry many more attributes
    than the models of [state.py] keep; [body], [description] and
    [html_url] of a user stand for those. *)
Module Github.

Record Label := { name : string; color : string; description : string }.
Record NamedUser := { login : string; avatar_url : string; html_url : string }.

Module Issue.
Record t := {
  number : Z;
  title : string;
  state : string;
  created_at : timestamp;
  updated_at : timestamp;
  html_url : string;
  labels : list Label;
  assignees : list NamedUser;
  body : string
}.
End Issue.

Module PullRequest.
Record t := {
  number : Z;
  title : string;
  state : string;
  merged_at : option timestamp;
  closed_at : option timestamp;
  html_url : string;
  labels : list Label;
  assignees : list NamedUser;
  body : string
}.
End PullRequest.

End Github.

(** A PyGithub [PaginatedList] being iterated: the objects it yields, page
    after page, and the exception that ends the iteration when a page
    cannot be fetched. *)
Record PaginatedList (A : Type) := {
  yielded : list A;
  failure : option exn
}.
Arguments yielded {A} p.
Arguments failure {A} p.

(** A PyGithub [Repository]: what iterating [get_issues(state=...)] and
    [get_pulls(state=...)] gives. *)
Record Repository := {
  get_issues : nat -> string -> PaginatedList Github.Issue.t;
  get_pulls : nat -> string -> PaginatedList Github.PullRequest.t
}.

(** The parsed [config.yaml], as far as the workflow reads it. *)
Record Config := {
  cfg_owner : string;
  cfg_name : string;
  cfg_token : string;
  cfg_issue_threshold_days : Z;
  cfg_check_interval_hours : Z;
  cfg_pr_lookback_hours : Z;
  cfg_smtp_host : string;
  cfg_smtp_port : Z;
  cfg_username : string;
  cfg_password : string;
  cfg_recipients : list string
}.

Record Env := {
  clock : nat -> datetime;                      (* datetime.now() *)
  isoformat : datetime -> string;               (* datetime.isoformat() *)
  get_repo : nat -> string -> Result Repository; (* Github.get_repo *)
  smtp_delivers : nat -> Mail -> bool;          (* EmailService._send_email *)
  load_config : nat -> Result Config            (* ConfigManager.load_config *)
}.

(** [obj] is the state object at hand: inside a node, the object the node
    was handed and assigns to; between the nodes of a run, the state the
    compiled graph keeps. *)
Record World := {
  obj : RepoMonitorState;
  tick : nat;               (* interactions with the outside so far *)
  trace : list Node;        (* nodes entered, oldest first *)
  outbox : list Mail        (* mails handed to SMTP, oldest first *)
}.

(** ** A state-and-exception monad over the world *)

Definition M (A : Type) : Type := World -> Result A * World.

Definition ret {A} (a : A) : M A := fun w => (Ok a, w).

Definition bind {A B} (m : M A) (k : A -> M B) : M B :=
  fun w => match m w with
           | (Ok a, w') => k a w'
           | (Raise e, w') => (Raise e, w')
           end.

Definition raise {A} (e : exn) : M A := fun w => (Raise e, w).

Declare Scope monad_scope.
Delimit Scope monad_scope with monad.
Notation "x <- m ;; k" := (bind m (fun x => k))
  (at level 61, m at next level, right associativity) : monad_scope.
Notation "m ;;; k" := (bind m (fun _ => k))
  (at level 61, right associativity) : monad_scope.
Open Scope monad_scope.

(** The outcome of a computation that does not touch the world. *)
Definition of_result {A} (r : Result A) : M A := fun w => (r, w).

Definition get_state : M RepoMonitorState := fun w => (Ok (obj w), w).

Definition modify (f : RepoMonitorState -> RepoMonitorState) : M unit :=
  fun w => (Ok tt, {| obj := f (obj w); tick := tick w;
                      trace := trace w; outbox := outbox w |}).

Definition put_state (s : RepoMonitorState) : M unit := modify (fun _ => s).

(** One interaction with the outside: the oracle is asked with the current
    count, which then advances. *)
Definition ask {A} (oracle : nat -> A) : M A :=
  fun w => (Ok (oracle (tick w)),
            {| obj := obj w; tick := S (tick w);
               trace := trace w; outbox := outbox w |}).

Definition ask_result {A} (oracle : nat -> Result A) : M A :=
  fun w => (oracle (tick w),
            {| obj := obj w; tick := S (tick w);
               trace := trace w; outbox := outbox w |}).

Definition enter (n : Node) : M unit :=
  fun w => (Ok tt, {| obj := obj w; tick := tick w;
                      trace := trace w ++ [n]; outbox := outbox w |}).

Definition post (m : Mail) : M unit :=
  fun w => (Ok tt, {| obj := obj w; tick := tick w;
                      trace := trace w; outbox := outbox w ++ [m] |}).

(** [m] run on the state object [s]; the object that was at hand before is
    at hand again afterwards, whether [m] returns or raises. *)
Definition on_object {A} (s : RepoMonitorState) (m : M A) : M A :=
  fun w =>
    match m {| obj := s; tick := tick w; trace := trace w; outbox := outbox w |}
    with
    | (r, w') => (r, {| obj := obj w; tick := tick w';
                        trace := trace w'; outbox := outbox w' |})
    end.

Section Program.

Variable env : Env.

(** [datetime.now()] *)
Definition datetime_now : M datetime := ask (clock env).

(** [Issue.age_days]: [(datetime.now() - self.created_at).days]. The clock
    is read at every evaluation of the property. *)
Definition age_days (issue : Issue.t) : M Z :=
  now <- datetime_now ;;
  span <- of_result (DateTime.since now (Issue.created_at issue)) ;;
  ret (DateTime.days span).

(** *** [github_client.py] *)

(** [[{"name": label.name, "color": label.color} for label in labels]] and
    the like for the assignees *)
Definition label_dict (label : Github.Label) : Label :=
  {| label_name := Github.name label; label_color := Github.color label |}.

Definition assignee_dict (assignee : Github.NamedUser) : Assignee :=
  {| login := Github.login assignee; avatar_url := Github.avatar_url assignee |}.

(** [Issue(number=issue.number, ...)] in the loop of [get_open_issues] *)
Definition copy_issue (issue : Github.Issue.t) : Issue.t :=
  {| Issue.number := Github.Issue.number issue;
     Issue.title := Github.Issue.title issue;
     Issue.state := Github.Issue.state issue;
     Issue.created_at := Github.Issue.created_at issue;
     Issue.updated_at := Github.Issue.updated_at issue;
     Issue.html_url := Github.Issue.html_url issue;
     Issue.labels := map label_dict (Github.Issue.labels issue);
     Issue.assignees := map assignee_dict (Github.Issue.assignees issue) |}.

(** [PullRequest(number=pr.number, ...)], the same in both branches of the
    loop of [get_recent_prs] *)
Definition copy_pr (pr : Github.PullRequest.t) : PullRequest.t :=
  {| PullRequest.number := Github.PullRequest.number pr;
     PullRequest.title := Github.PullRequest.title pr;
     PullRequest.state := Github.PullRequest.state pr;
     PullRequest.merged_at := Github.PullRequest.merged_at pr;
     PullRequest.closed_at := Github.PullRequest.closed_at pr;
     PullRequest.html_url := Github.PullRequest.html_url pr;
     PullRequest.labels := map label_dict (Github.PullRequest.labels pr);
     PullRequest.assignees := map assignee_dict (Github.PullRequest.assignees pr) |}.

Definition full_name (owner repo_name : string) : string :=
  owner ++ "/" ++ repo_name.

(** The end of a [for] loop over a paginated list: the exception of the
    page that could not be fetched, if any. *)
Definition end_of_iteration {A} (page : PaginatedList A) : M unit :=
  match failure page with
  | Some e => raise e
  | None => ret tt
  end.

(** The body of the loop of [get_open_issues] cannot raise; the issues
    rebuilt before a page fails are lost with the local list. *)
Definition get_open_issues (owner repo_name : string) : M (list Issue.t) :=
  repo <- ask_result (fun k => get_repo env k (full_name owner repo_name)) ;;
  fetched <- ask (fun k => get_issues repo k "open") ;;
  let issues := map copy_issue (yielded fetched) in
  end_of_iteration fetched ;;;
  ret issues.

(** The two tests of the loop body of [get_recent_prs]:
    [if pr.merged_at and pr.merged_at >= lookback_time], then
    [elif pr.closed_at and pr.closed_at >= lookback_time and not pr.merged_at]. *)
Definition merged_recently (lookback_time : datetime)
    (pr : Github.PullRequest.t) : Result bool :=
  match Github.PullRequest.merged_at pr with
  | Some m => DateTime.not_before m lookback_time
  | None => Ok false
  end.

Definition closed_recently_unmerged (lookback_time : datetime)
    (pr : Github.PullRequest.t) : Result bool :=
  match Github.PullRequest.closed_at pr with
  | Some c =>
      match DateTime.not_before c lookback_time with
      | Ok b => Ok (b && negb (truthy (Github.PullRequest.merged_at pr)))
      | Raise e => Raise e
      end
  | None => Ok false
  end.

Fixpoint recent_prs_loop (lookback_time : datetime)
    (pulls : list Github.PullRequest.t) (prs : list PullRequest.t)
    : Result (list PullRequest.t) :=
  match pulls with
  | [] => Ok prs
  | pr :: rest =>
      match merged_recently lookback_time pr with
      | Raise e => Raise e
      | Ok true => recent_prs_loop lookback_time rest (prs ++ [copy_pr pr])
      | Ok false =>
          match closed_recently_unmerged lookback_time pr with
          | Raise e => Raise e
          | Ok true => recent_prs_loop lookback_time rest (prs ++ [copy_pr pr])
          | Ok false => recent_prs_loop lookback_time rest prs
          end
      end
  end.

(** [lookback_time = datetime.now() - timedelta(hours=lookback_hours)] is
    computed before the pull requests are asked for. *)
Definition get_recent_prs (owner repo_name : string) (lookback_hours : Z)
    : M (list PullRequest.t) :=
  repo <- ask_result (fun k => get_repo env k (full_name owner repo_name)) ;;
  now <- datetime_now ;;
  span <- of_result (DateTime.timedelta_of_hours lookback_hours) ;;
  lookback_time <- of_result (DateTime.sub_timedelta now span) ;;
  pulls <- ask (fun k => get_pulls repo k "all") ;;
  prs <- of_result (recent_prs_loop lookback_time (yielded pulls) []) ;;
  end_of_iteration pulls ;;;
  ret prs.

(** *** [email_service.py]: [_send_email] returns [True] after a delivery
    and [False] from its [except Exception] handler; either way one message
    has been handed to SMTP. *)
Definition _send_email (m : Mail) : M bool :=
  post m ;;;
  ask (fun k => smtp_delivers env k m).

Definition email_send_issue_alert (recipients : list string)
    (issues : list Issue.t) (repo_name repo_url : string) (threshold_days : Z)
    : M bool :=
  _send_email (IssueAlertMail recipients issues repo_name repo_url threshold_days).

Definition email_send_pr_notification (recipients : list string)
    (prs : list PullRequest.t) (repo_name repo_url : string) : M bool :=
  _send_email (PRNotificationMail recipients prs repo_name repo_url).

(** *** [workflow.py]: the nodes *)

Section Workflow.

(** [self.config] *)
Variable config : Config.

Definition _fetch_data_node : M unit :=
  state <- get_state ;;
  issues <- get_open_issues (repo_owner state) (repo_name state) ;;
  modify (set_open_issues issues) ;;;
  state <- get_state ;;
  prs <- get_recent_prs (repo_owner state) (repo_name state)
                        (cfg_pr_lookback_hours config) ;;
  modify (set_recent_prs prs).

(** The [for] loop of [_analyze_issues_node]; [alert_issues] is the local
    list being filled. *)
Fixpoint analyze_issues_loop (threshold : Z) (issues : list Issue.t)
    (alert_issues : list Issue.t) : M (list Issue.t) :=
  match issues with
  | [] => ret alert_issues
  | issue_data :: rest =>
      age <- age_days issue_data ;;
      if threshold <=? age
      then analyze_issues_loop threshold rest (alert_issues ++ [issue_data])
      else analyze_issues_loop threshold rest alert_issues
  end.

Definition _analyze_issues_node : M unit :=
  state <- get_state ;;
  alert <- analyze_issues_loop (issue_threshold_days state) (open_issues state) [] ;;
  modify (set_alert_issues alert) ;;;
  modify (set_should_send_issue_alert (0 <? Z.of_nat (List.length alert))).

(** [if pr.is_merged or pr.closed_at] *)
Definition reportable (pr : PullRequest.t) : bool :=
  PullRequest.is_merged pr || truthy (PullRequest.closed_at pr).

Fixpoint analyze_prs_loop (prs : list PullRequest.t)
    (notification_prs : list PullRequest.t) : list PullRequest.t :=
  match prs with
  | [] => notification_prs
  | pr_data :: rest =>
      if reportable pr_data
      then analyze_prs_loop rest (notification_prs ++ [pr_data])
      else analyze_prs_loop rest notification_prs
  end.

Definition _analyze_prs_node : M unit :=
  state <- get_state ;;
  let selected := analyze_prs_loop (recent_prs state) [] in
  modify (set_notification_prs selected) ;;;
  modify (set_should_send_pr_notification (0 <? Z.of_nat (List.length selected))).

Definition _should_send_issue_alert (state : RepoMonitorState) : string :=
  if should_send_issue_alert state then "send_alert" else "skip".

Definition _should_send_pr_notification (state : RepoMonitorState) : string :=
  if should_send_pr_notification state then "send_notification" else "skip".

Definition repo_url_of (state : RepoMonitorState) : string :=
  "https://github.com/" ++ repo_owner state ++ "/" ++ repo_name state.

(** [state.sent_notifications.append(ident)] *)
Definition append_sent_notification (ident : string) (s : RepoMonitorState) :=
  set_sent_notifications (sent_notifications s ++ [ident]) s.

Definition _send_issue_alert_node : M unit :=
  state <- get_state ;;
  success <- email_send_issue_alert (email_recipients state) (alert_issues state)
               (repo_name state) (repo_url_of state) (issue_threshold_days state) ;;
  if success : bool
  then now <- datetime_now ;;
       modify (append_sent_notification ("issue_alert_" ++ isoformat env now))
  else ret tt.

Definition _send_pr_notification_node : M unit :=
  state <- get_state ;;
  success <- email_send_pr_notification (email_recipients state)
               (notification_prs state) (repo_name state) (repo_url_of state) ;;
  if success : bool
  then now <- datetime_now ;;
       modify (append_sent_notification ("pr_notification_" ++ isoformat env now))
  else ret tt.

(** [if state.sent_notifications:] is the truthiness of the list. *)
Definition nonempty {A : Type} (l : list A) : bool :=
  match l with [] => false | _ :: _ => true end.

Definition _update_state_node : M unit :=
  state <- get_state ;;
  (if nonempty (sent_notifications state)
   then now <- datetime_now ;; modify (set_last_email_sent (Some now))
   else ret tt) ;;;
  modify (set_should_send_issue_alert false) ;;;
  modify (set_should_send_pr_notification false) ;;;
  modify (set_alert_issues []) ;;;
  modify (set_notification_prs []).

(** *** [workflow.py]: the graph of [_create_workflow] *)

Inductive Target :=
| Goto (n : Node)
| END.

Definition Node_eq_dec (a b : Node) : {a = b} + {a <> b}.
Proof. decide equality. Defined.

Definition Node_eqb (a b : Node) : bool :=
  if Node_eq_dec a b then true else false.

Definition node_action (n : Node) : M unit :=
  match n with
  | fetch_data => _fetch_data_node
  | analyze_issues => _analyze_issues_node
  | analyze_prs => _analyze_prs_node
  | send_issue_alert => _send_issue_alert_node
  | send_pr_notification => _send_pr_notification_node
  | update_state => _update_state_node
  end.

(** [add_node], in the order of the calls *)
Definition nodes : list Node :=
  [ fetch_data; analyze_issues; analyze_prs;
    send_issue_alert; send_pr_notification; update_state ].

Definition entry_point : Node := fetch_data.

(** [add_edge] *)
Definition edges : list (Node * Target) :=
  [ (fetch_data, Goto analyze_issues);
    (fetch_data, Goto analyze_prs);
    (send_issue_alert, Goto update_state);
    (send_pr_notification, Goto update_state);
    (update_state, END) ].

(** [add_conditional_edges]: source, router, and the dict from the router's
    labels to the next node. *)
Definition conditional_edges
    : list (Node * ((RepoMonitorState -> string) * list (string * Target))) :=
  [ (analyze_issues,
     (_should_send_issue_alert,
      [ ("send_alert", Goto send_issue_alert); ("skip", Goto update_state) ]));
    (analyze_prs,
     (_should_send_pr_notification,
      [ ("send_notification", Goto send_pr_notification);
        ("skip", Goto update_state) ])) ].

Fixpoint lookup_label (label : string) (mapping : list (string * Target))
    : option Target :=
  match mapping with
  | [] => None
  | (k, t) :: rest => if String.eqb k label then Some t else lookup_label label rest
  end.

(** The targets a node triggers once it has run, read on the state it
    leaves. *)
Definition successors (n : Node) (state : RepoMonitorState) : list Target :=
  map snd (filter (fun e => Node_eqb (fst e) n) edges)
  ++ flat_map
       (fun ce =>
          if Node_eqb (fst ce) n
          then match lookup_label (fst (snd ce) state) (snd (snd ce)) with
               | Some t => [t]
               | None => []
               end
          else [])
       conditional_edges.


(** *** Running the compiled graph

    LangGraph itself is not part of the repository. [StateGraph] is given
    the plain dataclass [RepoMonitorState], whose fields carry no reducer,
    and every node returns the whole state object. The compiled graph is
    run here as LangGraph runs it, in steps:
    - the graph keeps the current value of every field; [invoke] loads
      them from the state it is given, and does not assign to that object;
    - every node triggered in the previous step is called once, on a
      state object of its own built from the graph's values; what a node
      assigns to its object reaches the graph only as the state it
      returns;
    - the edges leaving a node are followed on the state it returns, and
      trigger the nodes of the next step;
    - the states returned in a step are written back together. A field
      without a reducer takes one value per step: when two nodes ran in the
      step, each wrote every field, and the step raises
      [InvalidUpdateError] with nothing written;
    - an exception raised by a node ends the run with that exception;
    - the run ends when nothing is triggered, and more steps than
      [recursion_limit] raise [GraphRecursionError].

    The nodes of a step are called here one after another, in the order
    in which they were added to the graph, and the step stops at the first
    that raises. *)

Definition InvalidUpdateError : exn :=
  {| exn_class := "InvalidUpdateError"; exn_is_Exception := true;
     exn_message := "Can receive only one value per step. Use an Annotated key to handle multiple values." |}.

(** One node of a step: the state it returns and the targets its edges
    select on that state. *)
Definition call_node (n : Node) : M (RepoMonitorState * list Target) :=
  values <- get_state ;;
  enter n ;;;
  on_object values
    (node_action n ;;;
     returned <- get_state ;;
     ret (returned, successors n returned)).

Fixpoint run_frontier (frontier : list Node)
    : M (list (RepoMonitorState * list Target)) :=
  match frontier with
  | [] => ret []
  | n :: rest =>
      written <- call_node n ;;
      others <- run_frontier rest ;;
      ret (written :: others)
  end.

(** Writing back what the nodes of a step returned. *)
Definition apply_writes (writes : list (RepoMonitorState * list Target))
    : M (list Target) :=
  match writes with
  | [] => ret []
  | [(returned, targets)] => put_state returned ;;; ret targets
  | _ :: _ :: _ => raise InvalidUpdateError
  end.

Definition triggers (n : Node) (t : Target) : bool :=
  match t with
  | Goto m => Node_eqb m n
  | END => false
  end.

Definition next_frontier (ts : list Target) : list Node :=
  filter (fun n => existsb (triggers n) ts) nodes.

Definition recursion_limit : nat := 25.

Definition GraphRecursionError : exn :=
  {| exn_class := "GraphRecursionError"; exn_is_Exception := true;
     exn_message := "Recursion limit reached" |}.

Fixpoint supersteps (fuel : nat) (frontier : list Node) : M unit :=
  match frontier with
  | [] => ret tt
  | _ :: _ =>
      match fuel with
      | O => raise GraphRecursionError
      | S fuel' =>
          writes <- run_frontier frontier ;;
          ts <- apply_writes writes ;;
          supersteps fuel' (next_frontier ts)
      end
  end.

(** [RepoMonitorWorkflow.run]: [self.workflow.invoke(initial_state)] *)
Definition run (initial_state : RepoMonitorState) : M RepoMonitorState :=
  put_state initial_state ;;;
  supersteps recursion_limit [entry_point] ;;;
  get_state.

End Workflow.

(** *** [config_manager.py] and [main.py] *)

Definition create_initial_state (config : Config) : RepoMonitorState :=
  {| repo_owner := cfg_owner config;
     repo_name := cfg_name config;
     github_token := cfg_token config;
     issue_threshold_days := cfg_issue_threshold_days config;
     email_recipients := cfg_recipients config;
     open_issues := [];
     recent_prs := [];
     last_email_sent := None;
     sent_notifications := [];
     smtp_host := cfg_smtp_host config;
     smtp_port := cfg_smtp_port config;
     email_username := cfg_username config;
     email_password := cfg_password config;
     should_send_issue_alert := false;
     should_send_pr_notification := false;
     alert_issues := [];
     notification_prs := [] |}.

(** [try: body  except Exception as e: print(...); traceback.print_exc()] *)
Definition try_except_Exception (body : M unit) : M unit :=
  fun w => match body w with
           | (Ok a, w') => (Ok a, w')
           | (Raise e, w') =>
               if exn_is_Exception e then (Ok tt, w') else (Raise e, w')
           end.

Definition run_monitoring_cycle : M unit :=
  try_except_Exception
    (config <- ask_result (load_config env) ;;
     let initial_state := create_initial_state config in
     final_state <- run config initial_state ;;
     ret tt).

Definition run_once : M unit := run_monitoring_cycle.

(** The exit status of [python main.py --once]: [main] calls [run_once] and
    returns; the interpreter exits with 0 when [main] returns and with 1
    when an exception leaves it. *)
Definition exit_status_once (w : World) : Z :=
  match fst (run_once w) with
  | Ok _ => 0
  | Raise _ => 1
  end.

End Program.

(** ** [config_manager.py]: reading and checking the configuration

    A parsed YAML document is a tree of Python values. Mappings keep their
    items in order and have distinct string keys, as the sections of
    [config.yaml] do; every scalar that is neither [None], a bool, an int
    nor a str (a float, a date, binary data) is an [YOther] carrying the
    name of its Python type: the code only passes such values along or
    rejects them. *)

Module ConfigManager.

#[warnings="-register-all"]
Inductive yaml :=
| YNull
| YBool (b : bool)
| YInt (z : Z)
| YOther (type_name : string)
| YStr (s : string)
| YList (items : list yaml)
| YDict (items : list (string * yaml)).

Definition ValueError (message : string) : exn :=
  {| exn_class := "ValueError"; exn_is_Exception := true;
     exn_message := message |}.

Definition TypeError (message : string) : exn :=
  {| exn_class := "TypeError"; exn_is_Exception := true;
     exn_message := message |}.

Definition KeyError (key : string) : exn :=
  {| exn_class := "KeyError"; exn_is_Exception := true;
     exn_message := "'" ++ key ++ "'" |}.

Definition FileNotFoundError (message : string) : exn :=
  {| exn_class := "FileNotFoundError"; exn_is_Exception := true;
     exn_message := message |}.

Definition rbind {A B : Type} (m : Result A) (k : A -> Result B) : Result B :=
  match m with
  | Ok a => k a
  | Raise e => Raise e
  end.

Declare Scope result_scope.
Delimit Scope result_scope with result.
Notation "x <- m ;; k" := (rbind m (fun x => k))
  (at level 61, m at next level, right associativity) : result_scope.
Notation "m ;;; k" := (rbind m (fun _ => k))
  (at level 61, right associativity) : result_scope.

(** *** The string operations used *)

(** [s.startswith(prefix)], [s.endswith(suffix)] and the slice [s[2:-1]] *)
Definition startswith (prefix s : string) : bool := String.prefix prefix s.

Definition endswith (suffix s : string) : bool :=
  (String.length suffix <=? String.length s)%nat
  && String.eqb (substring (String.length s - String.length suffix)
                           (String.length suffix) s) suffix.

Definition slice_2_to_last (s : string) : string :=
  substring 2 (String.length s - 3) s.

(** [needle in s] on strings: [needle] occurs in [s] *)
Fixpoint is_substring (needle s : string) : bool :=
  String.prefix needle s
  || match s with
     | EmptyString => false
     | String _ rest => is_substring needle rest
     end.

(** *** [_substitute_env_vars] *)

Section Substitute.

(** [os.getenv] *)
Variable getenv : string -> option string.

(** [obj.startswith("${") and obj.endswith("}")] *)
Definition is_placeholder (s : string) : bool :=
  startswith "${" s && endswith "}" s.

Fixpoint _substitute_env_vars (obj : yaml) : Result yaml :=
  match obj with
  | YDict items =>
      let fix over_items (kvs : list (string * yaml))
          : Result (list (string * yaml)) :=
        match kvs with
        | [] => Ok []
        | (key, value) :: rest =>
            match _substitute_env_vars value with
            | Raise e => Raise e
            | Ok value' =>
                match over_items rest with
                | Raise e => Raise e
                | Ok rest' => Ok ((key, value') :: rest')
                end
            end
        end in
      match over_items items with
      | Raise e => Raise e
      | Ok items' => Ok (YDict items')
      end
  | YList items =>
      let fix over_list (xs : list yaml) : Result (list yaml) :=
        match xs with
        | [] => Ok []
        | item :: rest =>
            match _substitute_env_vars item with
            | Raise e => Raise e
            | Ok item' =>
                match over_list rest with
                | Raise e => Raise e
                | Ok rest' => Ok (item' :: rest')
                end
            end
        end in
      match over_list items with
      | Raise e => Raise e
      | Ok items' => Ok (YList items')
      end
  | YStr s =>
      if is_placeholder s
      then let env_var := slice_2_to_last s in
           match getenv env_var with
           | None =>
               Raise (ValueError ("Environment variable " ++ env_var
                                  ++ " not found"))
           | Some value => Ok (YStr value)
           end
      else Ok obj
  | _ => Ok obj
  end.

End Substitute.

(** *** [_validate_config] *)

Definition type_name_of (v : yaml) : string :=
  match v with
  | YNull => "NoneType"
  | YBool _ => "bool"
  | YInt _ => "int"
  | YOther n => n
  | YStr _ => "str"
  | YList _ => "list"
  | YDict _ => "dict"
  end.

Fixpoint lookup (key : string) (items : list (string * yaml)) : option yaml :=
  match items with
  | [] => None
  | (k, v) :: rest => if String.eqb k key then Some v else lookup key rest
  end.

(** [key in container] for a string key: a key of a mapping, an element of
    a list, a substring of a string; anything else is not iterable. *)
Definition py_contains (key : string) (container : yaml) : Result bool :=
  match container with
  | YDict items =>
      Ok (match lookup key items with Some _ => true | None => false end)
  | YList items =>
      Ok (existsb (fun item => match item with
                               | YStr s => String.eqb s key
                               | _ => false
                               end) items)
  | YStr s => Ok (is_substring key s)
  | other =>
      Raise (TypeError ("argument of type '" ++ type_name_of other
                        ++ "' is not iterable"))
  end.

(** [container[key]] for a string key *)
Definition py_getitem (container : yaml) (key : string) : Result yaml :=
  match container with
  | YDict items =>
      match lookup key items with
      | Some v => Ok v
      | None => Raise (KeyError key)
      end
  | YList _ => Raise (TypeError "list indices must be integers or slices, not str")
  | YStr _ => Raise (TypeError "string indices must be integers")
  | other =>
      Raise (TypeError ("'" ++ type_name_of other
                        ++ "' object is not subscriptable"))
  end.

(** [isinstance(v, int)]: [bool] is a subclass of [int]. *)
Definition isinstance_int (v : yaml) : bool :=
  match v with
  | YInt _ | YBool _ => true
  | _ => false
  end.

Definition isinstance_list (v : yaml) : bool :=
  match v with
  | YList _ => true
  | _ => false
  end.

(** Truthiness: [not v] is true for [None], [False], 0, and empty strings,
    lists and mappings. *)
Definition py_truthy (v : yaml) : bool :=
  match v with
  | YNull => false
  | YBool b => b
  | YInt z => negb (z =? 0)
  | YOther _ => true
  | YStr s => negb (String.eqb s "")
  | YList items => match items with [] => false | _ :: _ => true end
  | YDict items => match items with [] => false | _ :: _ => true end
  end.

(** [for name in names: if name not in container: raise ValueError(...)] *)
Fixpoint require_all (what : string) (names : list string) (container : yaml)
    : Result unit :=
  match names with
  | [] => Ok tt
  | name :: rest =>
      (present <- py_contains name container ;;
       if present : bool
       then require_all what rest container
       else Raise (ValueError ("Missing required " ++ what ++ ": " ++ name)))%result
  end.

Definition require (condition : bool) (message : string) : Result unit :=
  if condition then Ok tt else Raise (ValueError message).

Definition required_sections : list string :=
  [ "repository"; "monitoring"; "email" ].
Definition required_repo_fields : list string := [ "owner"; "name"; "token" ].
Definition required_monitoring_fields : list string :=
  [ "issue_threshold_days"; "check_interval_hours"; "pr_lookback_hours" ].
Definition required_email_fields : list string :=
  [ "smtp_host"; "smtp_port"; "username"; "password"; "recipients" ].

Definition _validate_config (config : yaml) : Result unit :=
  (require_all "configuration section" required_sections config ;;;
   repo_config <- py_getitem config "repository" ;;
   require_all "repository field" required_repo_fields repo_config ;;;
   monitoring_config <- py_getitem config "monitoring" ;;
   require_all "monitoring field" required_monitoring_fields monitoring_config ;;;
   email_config <- py_getitem config "email" ;;
   require_all "email field" required_email_fields email_config ;;;
   v <- py_getitem monitoring_config "issue_threshold_days" ;;
   require (isinstance_int v) "issue_threshold_days must be an integer" ;;;
   v <- py_getitem monitoring_config "check_interval_hours" ;;
   require (isinstance_int v) "check_interval_hours must be an integer" ;;;
   v <- py_getitem monitoring_config "pr_lookback_hours" ;;
   require (isinstance_int v) "pr_lookback_hours must be an integer" ;;;
   v <- py_getitem email_config "smtp_port" ;;
   require (isinstance_int v) "smtp_port must be an integer" ;;;
   v <- py_getitem email_config "recipients" ;;
   require (isinstance_list v) "recipients must be a list" ;;;
   v <- py_getitem email_config "recipients" ;;
   require (py_truthy v) "At least one email recipient must be specified")%result.

(** *** [load_config]

    [file_exists] is the answer of [os.path.exists(self.config_path)] and
    [parsed] what opening the file and [yaml.safe_load] give, or the
    exception they raise. *)
Definition load_config (getenv : string -> option string) (config_path : string)
    (file_exists : bool) (parsed : Result yaml) : Result yaml :=
  if negb file_exists
  then Raise (FileNotFoundError ("Configuration file not found: " ++ config_path))
  else
    (config <- parsed ;;
     config <- _substitute_env_vars getenv config ;;
     _validate_config config ;;;
     Ok config)%result.

(** *** Vocabulary for the properties *)

(** The string leaves of a document, in the order of traversal. *)
Fixpoint strings_of (t : yaml) : list string :=
  match t with
  | YStr s => [s]
  | YList items => flat_map strings_of items
  | YDict items => flat_map (fun kv => strings_of (snd kv)) items
  | _ => []
  end.

(** The document with every string leaf replaced by its image. *)
Fixpoint replace_strings (f : string -> string) (t : yaml) : yaml :=
  match t with
  | YStr s => YStr (f s)
  | YList items => YList (map (replace_strings f) items)
  | YDict items => YDict (map (fun kv => (fst kv, replace_strings f (snd kv))) items)
  | other => other
  end.

(** A placeholder whose variable is not set. *)
Definition unresolved (getenv : string -> option string) (s : string) : bool :=
  is_placeholder s
  && match getenv (slice_2_to_last s) with Some _ => false | None => true end.

(** What a string leaf becomes when its variable, if it names one, is set. *)
Definition resolve (getenv : string -> option string) (s : string) : string :=
  if is_placeholder s
  then match getenv (slice_2_to_last s) with Some value => value | None => s end
  else s.

(** A configuration with the three sections and every required field. *)
Definition config_of (owner name token threshold interval lookback
                      host port username password : yaml)
    (recipients : list yaml) : yaml :=
  YDict
    [ ("repository", YDict [ ("owner", owner); ("name", name); ("token", token) ]);
      ("monitoring", YDict [ ("issue_threshold_days", threshold);
                             ("check_interval_hours", interval);
                             ("pr_lookback_hours", lookback) ]);
      ("email", YDict [ ("smtp_host", host); ("smtp_port", port);
                        ("username", username); ("password", password);
                        ("recipients", YList recipients) ]) ].

(** A result that is a value or a [ValueError]. *)
Definition only_ValueError {A : Type} (r : Result A) : Prop :=
  match r with
  | Ok _ => True
  | Raise e => exn_class e = "ValueError"
  end.

End ConfigManager.


(** ** Sample data, after [test_agent.py] *)

Module Sample.

(** 2023-11-14T22:13:20 *)
Definition now0 : datetime := 63835596800000000.

(** [create_test_issues]: one issue ten days old, one three days old. *)
Definition create_test_issues (now : datetime) : list Issue.t :=
  [ {| Issue.number := 1; Issue.title := "Test Issue - Old";
       Issue.state := "open";
       Issue.created_at := Naive (now - DateTime.of_days 10);
       Issue.updated_at := Naive (now - DateTime.of_days 2);
       Issue.html_url := "https://github.com/test/repo/issues/1";
       Issue.labels := [ {| label_name := "bug"; label_color := "d73a4a" |} ];
       Issue.assignees :=
         [ {| login := "testuser";
              avatar_url := "https://example.com/avatar.png" |} ] |};
    {| Issue.number := 2; Issue.title := "Test Issue - Recent";
       Issue.state := "open";
       Issue.created_at := Naive (now - DateTime.of_days 3);
       Issue.updated_at := Naive (now - DateTime.hours 1);
       Issue.html_url := "https://github.com/test/repo/issues/2";
       Issue.labels :=
         [ {| label_name := "enhancement"; label_color := "a2eeef" |} ];
       Issue.assignees := [] |} ].

(** An issue ten days old whose [created_at] is aware of its time zone, as
    [2023-11-04T22:13:20+00:00] is. *)
Definition issue_aware (now : datetime) : Issue.t :=
  {| Issue.number := 3; Issue.title := "Old, with a time zone";
     Issue.state := "open";
     Issue.created_at := Aware (now - DateTime.of_days 10);
     Issue.updated_at := Aware (now - DateTime.of_days 2);
     Issue.html_url := "https://github.com/test/repo/issues/3";
     Issue.labels := []; Issue.assignees := [] |}.

(** [create_test_prs]: one PR merged two hours ago, one closed without
    merge an hour ago. *)
Definition create_test_prs (now : datetime) : list PullRequest.t :=
  [ {| PullRequest.number := 10; PullRequest.title := "Test PR - Merged";
       PullRequest.state := "closed";
       PullRequest.merged_at := Some (Naive (now - DateTime.hours 2));
       PullRequest.closed_at := Some (Naive (now - DateTime.hours 2));
       PullRequest.html_url := "https://github.com/test/repo/pull/10";
       PullRequest.labels :=
         [ {| label_name := "feature"; label_color := "a2eeef" |} ];
       PullRequest.assignees :=
         [ {| login := "devuser";
              avatar_url := "https://example.com/avatar2.png" |} ] |};
    {| PullRequest.number := 11; PullRequest.title := "Test PR - Closed";
       PullRequest.state := "closed";
       PullRequest.merged_at := None;
       PullRequest.closed_at := Some (Naive (now - DateTime.hours 1));
       PullRequest.html_url := "https://github.com/test/repo/pull/11";
       PullRequest.labels := [];
       PullRequest.assignees := [] |} ].

(** A PR merged long ago whose [closed_at] is recent, one still open, and
    one merged an hour ago whose timestamps are aware of their time
    zone. *)
Definition pr_merged_old_closed_recent (now : datetime) : PullRequest.t :=
  {| PullRequest.number := 12; PullRequest.title := "Old merge";
     PullRequest.state := "closed";
     PullRequest.merged_at := Some (Naive (now - DateTime.hours 72));
     PullRequest.closed_at := Some (Naive (now - DateTime.hours 1));
     PullRequest.html_url := "https://github.com/test/repo/pull/12";
     PullRequest.labels := []; PullRequest.assignees := [] |}.

Definition pr_open : PullRequest.t :=
  {| PullRequest.number := 13; PullRequest.title := "Still open";
     PullRequest.state := "open";
     PullRequest.merged_at := None; PullRequest.closed_at := None;
     PullRequest.html_url := "https://github.com/test/repo/pull/13";
     PullRequest.labels := []; PullRequest.assignees := [] |}.

Definition pr_aware (now : datetime) : PullRequest.t :=
  {| PullRequest.number := 14; PullRequest.title := "Merged, with a time zone";
     PullRequest.state := "closed";
     PullRequest.merged_at := Some (Aware (now - DateTime.hours 1));
     PullRequest.closed_at := Some (Aware (now - DateTime.hours 1));
     PullRequest.html_url := "https://github.com/test/repo/pull/14";
     PullRequest.labels := []; PullRequest.assignees := [] |}.

Definition config0 : Config :=
  {| cfg_owner := "test-org"; cfg_name := "test-repo"; cfg_token := "test-token";
     cfg_issue_threshold_days := 7; cfg_check_interval_hours := 6;
     cfg_pr_lookback_hours := 24;
     cfg_smtp_host := "smtp.gmail.com"; cfg_smtp_port := 587;
     cfg_username := "test@example.com"; cfg_password := "test-password";
     cfg_recipients := [ "test@example.com" ] |}.

Definition SourceUnavailable : exn :=
  {| exn_class := "SourceUnavailable"; exn_is_Exception := true;
     exn_message := "401 Bad credentials" |}.

(** The PyGithub objects of which the models above are the rebuilt
    forms. *)
Definition api_label (label : Label) : Github.Label :=
  {| Github.name := label_name label; Github.color := label_color label;
     Github.description := "" |}.

Definition api_user (assignee : Assignee) : Github.NamedUser :=
  {| Github.login := login assignee; Github.avatar_url := avatar_url assignee;
     Github.html_url := "https://github.com/" ++ login assignee |}.

Definition api_issue (issue : Issue.t) : Github.Issue.t :=
  {| Github.Issue.number := Issue.number issue;
     Github.Issue.title := Issue.title issue;
     Github.Issue.state := Issue.state issue;
     Github.Issue.created_at := Issue.created_at issue;
     Github.Issue.updated_at := Issue.updated_at issue;
     Github.Issue.html_url := Issue.html_url issue;
     Github.Issue.labels := map api_label (Issue.labels issue);
     Github.Issue.assignees := map api_user (Issue.assignees issue);
     Github.Issue.body := "Steps to reproduce" |}.

Definition api_pr (pr : PullRequest.t) : Github.PullRequest.t :=
  {| Github.PullRequest.number := PullRequest.number pr;
     Github.PullRequest.title := PullRequest.title pr;
     Github.PullRequest.state := PullRequest.state pr;
     Github.PullRequest.merged_at := PullRequest.merged_at pr;
     Github.PullRequest.closed_at := PullRequest.closed_at pr;
     Github.PullRequest.html_url := PullRequest.html_url pr;
     Github.PullRequest.labels := map api_label (PullRequest.labels pr);
     Github.PullRequest.assignees := map api_user (PullRequest.assignees pr);
     Github.PullRequest.body := "Summary of the change" |}.

(** A repository answering with the given issues, and with the given pull
    requests or with a failure to list them. *)
Definition repo_with (issues : list Issue.t) (pulls : Result (list PullRequest.t))
    : Repository :=
  {| get_issues := fun _ _ =>
       {| yielded := map api_issue issues; failure := None |};
     get_pulls := fun _ _ =>
       match pulls with
       | Ok prs => {| yielded := map api_pr prs; failure := None |}
       | Raise e => {| yielded := []; failure := Some e |}
       end |}.

(** An environment with a stopped clock, the given repository (or failure
    to reach it) and an SMTP server that always answers [delivers]. *)
Definition env_of (repo : Result Repository) (delivers : bool) : Env :=
  {| clock := fun _ => now0;
     isoformat := fun _ => "2023-11-14T22:13:20";
     get_repo := fun _ _ => repo;
     smtp_delivers := fun _ _ => delivers;
     load_config := fun _ => Ok config0 |}.

Definition state0 : RepoMonitorState := create_initial_state config0.

Definition world_of (s : RepoMonitorState) : World :=
  {| obj := s; tick := 0; trace := []; outbox := [] |}.

End Sample.

(** ** Reasoning about the world monad *)

Definition with_obj (s : RepoMonitorState) (w : World) : World :=
  {| obj := s; tick := tick w; trace := trace w; outbox := outbox w |}.

(** The world once [enter n] has logged the node. *)
Definition entered (n : Node) (w : World) : World :=
  {| obj := obj w; tick := tick w; trace := trace w ++ [n]; outbox := outbox w |}.

(** The class of the exception a computation raised, if it raised. *)
Definition exn_class_of {A : Type} (r : Result A) : option string :=
  match r with
  | Ok _ => None
  | Raise e => Some (exn_class e)
  end.

(** The identity and configuration part of a state agrees with that of
    another. *)
Definition same_config (s s' : RepoMonitorState) : Prop :=
  repo_owner s' = repo_owner s /\
  repo_name s' = repo_name s /\
  github_token s' = github_token s /\
  issue_threshold_days s' = issue_threshold_days s /\
  email_recipients s' = email_recipients s /\
  smtp_host s' = smtp_host s /\
  smtp_port s' = smtp_port s /\
  email_username s' = email_username s /\
  email_password s' = email_password s.

(** The memory and the SMTP log only grow, and no more identifiers are
    recorded than mails were handed to SMTP. *)
Definition grows (w w' : World) : Prop :=
  exists gained mails,
    sent_notifications (obj w') = (sent_notifications (obj w) ++ gained)%list /\
    outbox w' = (outbox w ++ mails)%list /\
    (List.length gained <= List.length mails)%nat.

(** How many steps a node is away from the end of the graph. *)
Definition rank (n : Node) : nat :=
  match n with
  | update_state => 1
  | send_issue_alert | send_pr_notification => 2
  | analyze_issues | analyze_prs => 3
  | fetch_data => 4
  end.

Definition advance (k : nat) (w : World) : World :=
  {| obj := obj w; tick := (k + tick w)%nat; trace := trace w; outbox := outbox w |}.

(** The stale-issue test on a naive [created_at], at a given clock
    reading. *)
Definition stale_at (now : datetime) (threshold : Z) (issue : Issue.t) : bool :=
  threshold <=? DateTime.days (now - DateTime.instant (Issue.created_at issue)).

(** The selection of the loop when the k-th issue is aged at the reading
    the clock gives at that moment. *)
Fixpoint stale_from (env : Env) (k : nat) (threshold : Z) (issues : list Issue.t)
    : list Issue.t :=
  match issues with
  | [] => []
  | issue :: rest =>
      if stale_at (clock env k) threshold issue
      then issue :: stale_from env (S k) threshold rest
      else stale_from env (S k) threshold rest
  end.

Definition naive_issue (issue : Issue.t) : bool :=
  DateTime.is_naive (Issue.created_at issue).

Definition naive_opt (o : option timestamp) : bool :=
  match o with Some s => DateTime.is_naive s | None => true end.

(** Both timestamps of a pull request of the API are naive where present. *)
Definition naive_pull (pr : Github.PullRequest.t) : bool :=
  naive_opt (Github.PullRequest.merged_at pr)
  && naive_opt (Github.PullRequest.closed_at pr).

(** The test of the loop of [get_recent_prs] on naive timestamps: merged
    no earlier than [lookback_time], or never merged and closed no earlier
    than it. *)
Definition in_window (lookback_time : datetime) (pr : Github.PullRequest.t)
    : bool :=
  match Github.PullRequest.merged_at pr, Github.PullRequest.closed_at pr with
  | Some m, _ => lookback_time <=? DateTime.instant m
  | None, Some c => lookback_time <=? DateTime.instant c
  | None, None => false
  end.

Lemma advance_0 (w : World) : advance 0 w = w.
Proof. destruct w; reflexivity. Qed.

Lemma advance_S (k : nat) (w : World) :
  advance k (advance 1 w) = advance (S k) w.
Proof. destruct w; unfold advance; simpl; f_equal; lia. Qed.

(** On issues with naive [created_at] the loop reads the clock once per
    issue and returns the stale ones. *)
Lemma analyze_issues_loop_spec (env : Env) (threshold : Z) :
  forall issues acc w,
    forallb naive_issue issues = true ->
    analyze_issues_loop env threshold issues acc w =
    (Ok (acc ++ stale_from env (tick w) threshold issues)%list,
     advance (List.length issues) w).
Proof.
  induction issues as [| issue rest IH]; intros acc w Hnaive.
  - simpl. rewrite app_nil_r, advance_0. reflexivity.
  - simpl in Hnaive. apply andb_prop in Hnaive as [Hi Hrest].
    cbn [analyze_issues_loop stale_from].
    unfold age_days, datetime_now, ask, of_result, bind, ret, stale_at at 1.
    unfold naive_issue in Hi.
    destruct (Issue.created_at issue) as [created | utc]; [| discriminate].
    cbn [DateTime.since DateTime.instant List.length].
    destruct (threshold <=? _); rewrite (IH _ _ Hrest); cbn [tick];
      rewrite <- advance_S; try rewrite <- app_assoc; reflexivity.
Qed.

(** The loop assigns to nothing: whether it returns or raises, the state
    object and the logs are as before. *)
Lemma analyze_issues_loop_frame (env : Env) (threshold : Z) :
  forall issues acc w,
    let w' := snd (analyze_issues_loop env threshold issues acc w) in
    obj w' = obj w /\ trace w' = trace w /\ outbox w' = outbox w.
Proof.
  induction issues as [| issue rest IH]; intros acc w; cbv zeta.
  - repeat split.
  - cbn [analyze_issues_loop].
    unfold age_days, datetime_now, ask, of_result, bind, ret.
    destruct (DateTime.since _ _) as [span | e]; [| repeat split].
    destruct (threshold <=? _);
      match goal with
      | |- context [analyze_issues_loop env threshold rest ?a ?v] =>
          destruct (IH a v) as (Ho & Ht & Hb)
      end; rewrite Ho, Ht, Hb; repeat split.
Qed.

(** An issue whose [created_at] is aware of its time zone makes the loop
    raise when its turn comes, if not before. *)
Lemma analyze_issues_loop_aware (env : Env) (threshold : Z) :
  forall issues acc w,
    forallb naive_issue issues = false ->
    fst (analyze_issues_loop env threshold issues acc w) =
    Raise (DateTime.TypeError
             "can't subtract offset-naive and offset-aware datetimes").
Proof.
  induction issues as [| issue rest IH]; intros acc w Haware;
    [discriminate |].
  simpl in Haware.
  cbn [analyze_issues_loop].
  unfold age_days, datetime_now, ask, of_result, bind, ret.
  unfold naive_issue in Haware at 1.
  destruct (Issue.created_at issue) as [created | utc]; [| reflexivity].
  cbn [DateTime.since DateTime.is_naive andb] in *.
  destruct (threshold <=? _); apply IH; exact Haware.
Qed.

Lemma stale_from_stopped_clock (env : Env) (now : datetime) (threshold : Z) :
  (forall k, clock env k = now) ->
  forall issues k,
    stale_from env k threshold issues = filter (stale_at now threshold) issues.
Proof.
  intros Hclk; induction issues as [| issue rest IH]; intros k; simpl.
  - reflexivity.
  - rewrite Hclk, IH. reflexivity.
Qed.

Lemma nonempty_length {A : Type} (l : list A) :
  (0 <? Z.of_nat (List.length l)) = nonempty l.
Proof. destruct l; simpl; [reflexivity | apply Z.ltb_lt; lia]. Qed.

Lemma analyze_prs_loop_spec :
  forall prs acc, analyze_prs_loop prs acc = (acc ++ filter reportable prs)%list.
Proof.
  induction prs as [| pr rest IH]; intros acc; simpl.
  - now rewrite app_nil_r.
  - destruct (reportable pr); rewrite IH; [rewrite <- app_assoc |]; reflexivity.
Qed.

Lemma filter_In_iff {A : Type} (f : A -> bool) (l : list A) (x : A) :
  In x (filter f l) <-> In x l /\ f x = true.
Proof. apply filter_In. Qed.

Lemma forallb_In {A : Type} (f : A -> bool) (l : list A) :
  forallb f l = true <-> forall x, In x l -> f x = true.
Proof. apply forallb_forall. Qed.

Lemma forallb_false_In {A : Type} (f : A -> bool) (l : list A) (x : A) :
  In x l -> f x = false -> forallb f l = false.
Proof.
  intros Hin Hx. destruct (forallb f l) eqn:Hall; [| reflexivity].
  rewrite forallb_forall in Hall. rewrite (Hall x Hin) in Hx. discriminate.
Qed.

Lemma analyze_issues_node_spec (env : Env) (w : World) :
  forallb naive_issue (open_issues (obj w)) = true ->
  _analyze_issues_node env w =
  (Ok tt,
   let sel := stale_from env (tick w) (issue_threshold_days (obj w))
                         (open_issues (obj w)) in
   {| obj := set_should_send_issue_alert (nonempty sel)
               (set_alert_issues sel (obj w));
      tick := (List.length (open_issues (obj w)) + tick w)%nat;
      trace := trace w; outbox := outbox w |}).
Proof.
  intros Hnaive.
  unfold _analyze_issues_node, bind, get_state, modify.
  rewrite (analyze_issues_loop_spec _ _ _ _ _ Hnaive). cbn.
  rewrite nonempty_length. reflexivity.
Qed.

Lemma analyze_issues_node_aware (env : Env) (w : World) :
  forallb naive_issue (open_issues (obj w)) = false ->
  exists w',
    _analyze_issues_node env w =
    (Raise (DateTime.TypeError
              "can't subtract offset-naive and offset-aware datetimes"), w') /\
    obj w' = obj w /\ trace w' = trace w /\ outbox w' = outbox w.
Proof.
  intros Haware.
  pose proof (analyze_issues_loop_aware env (issue_threshold_days (obj w))
                _ [] w Haware) as Hr.
  pose proof (analyze_issues_loop_frame env (issue_threshold_days (obj w))
                (open_issues (obj w)) [] w) as Hf.
  cbv zeta in Hf.
  unfold _analyze_issues_node, bind, get_state.
  destruct (analyze_issues_loop env _ _ [] w) as [r w'].
  simpl in Hr, Hf. subst r. exists w'. split; [reflexivity | exact Hf].
Qed.

(** Whether it returns or raises, the issue analysis leaves the logs, the
    identity and configuration fields and [sent_notifications] alone. *)
Lemma analyze_issues_node_frame (env : Env) (w : World) :
  let w' := snd (_analyze_issues_node env w) in
  same_config (obj w) (obj w') /\
  sent_notifications (obj w') = sent_notifications (obj w) /\
  trace w' = trace w /\ outbox w' = outbox w.
Proof.
  cbv zeta.
  pose proof (analyze_issues_loop_frame env (issue_threshold_days (obj w))
                (open_issues (obj w)) [] w) as Hf.
  cbv zeta in Hf.
  unfold _analyze_issues_node, bind, get_state, modify.
  destruct (analyze_issues_loop env _ _ [] w) as [[alert | e] w'];
    simpl in Hf |- *; destruct Hf as (Ho & Ht & Hb); rewrite ?Ho;
    repeat split; assumption.
Qed.

Lemma analyze_prs_node_spec (w : World) :
  _analyze_prs_node w =
  (Ok tt,
   let sel := filter reportable (recent_prs (obj w)) in
   with_obj (set_should_send_pr_notification (nonempty sel)
               (set_notification_prs sel (obj w))) w).
Proof.
  unfold _analyze_prs_node, bind, get_state, modify, with_obj.
  rewrite analyze_prs_loop_spec. cbn.
  rewrite nonempty_length. reflexivity.
Qed.

Lemma days_of_whole_days (now : datetime) (d : Z) :
  DateTime.days (now - (now - DateTime.of_days d)) = d.
Proof.
  unfold DateTime.days, DateTime.of_days.
  replace (now - (now - d * us_per_day)) with (d * us_per_day) by lia.
  apply Z.div_mul. unfold us_per_day, us_per_hour. lia.
Qed.

(** ** The analysis stages *)

(** C2. With the clock standing at [now] during the stage: on fetched
    issues whose [created_at] is naive, the issue-analysis node returns
    normally and selects exactly the issues whose age in whole days (floor
    of the span from [created_at] to [now]) is at least the threshold, as
    the order-preserving filter of the fetched list; an issue created
    exactly [threshold] days before [now] is selected; the should-alert
    flag is true iff the selection is non-empty; an empty fetched list
    gives an empty selection. But as soon as one fetched issue has a
    [created_at] that is aware of its time zone, the node selects nothing:
    it raises [TypeError] and leaves the state object as it was. *)
Theorem analyze_issues_selects_stale (env : Env) (now : datetime) (w : World) :
  (forall k, clock env k = now) ->
  ((forall issue, In issue (open_issues (obj w)) ->
      exists created, Issue.created_at issue = Naive created) ->
   exists w',
     _analyze_issues_node env w = (Ok tt, w') /\
     alert_issues (obj w') =
       filter (fun issue =>
                 issue_threshold_days (obj w) <=?
                 (now - DateTime.instant (Issue.created_at issue))
                 / (24 * 3600000000))
              (open_issues (obj w)) /\
     (forall issue,
         In issue (alert_issues (obj w')) <->
         In issue (open_issues (obj w)) /\
         (now - DateTime.instant (Issue.created_at issue)) / (24 * 3600000000)
           >= issue_threshold_days (obj w)) /\
     (forall issue,
         In issue (open_issues (obj w)) ->
         Issue.created_at issue =
           Naive (now - DateTime.of_days (issue_threshold_days (obj w))) ->
         In issue (alert_issues (obj w'))) /\
     (should_send_issue_alert (obj w') = true <-> alert_issues (obj w') <> []) /\
     (open_issues (obj w) = [] -> alert_issues (obj w') = [])) /\
  (forall issue utc,
      In issue (open_issues (obj w)) ->
      Issue.created_at issue = Aware utc ->
      exists w',
        _analyze_issues_node env w =
        (Raise (DateTime.TypeError
                  "can't subtract offset-naive and offset-aware datetimes"), w') /\
        obj w' = obj w).
Proof.
  intros Hclk. split.
  - intros Hnaive.
    assert (Hall : forallb naive_issue (open_issues (obj w)) = true).
    { apply forallb_In. intros issue Hin.
      destruct (Hnaive issue Hin) as (created & Hc).
      unfold naive_issue. rewrite Hc. reflexivity. }
    eexists. split; [apply analyze_issues_node_spec; exact Hall |].
    cbn. rewrite (stale_from_stopped_clock env now _ Hclk).
    assert (Hin : forall issue,
               In issue (filter (stale_at now (issue_threshold_days (obj w)))
                                (open_issues (obj w))) <->
               In issue (open_issues (obj w)) /\
               (now - DateTime.instant (Issue.created_at issue))
               / (24 * 3600000000)
                 >= issue_threshold_days (obj w)).
    { intros issue. rewrite filter_In_iff.
      unfold stale_at, DateTime.days, us_per_day, us_per_hour.
      rewrite Z.leb_le. split; intros [H1 H2]; split; auto; lia. }
    split; [reflexivity |].
    split; [exact Hin |].
    split; [| split].
    + intros issue Hi Hc. apply Hin. split; [exact Hi |].
      rewrite Hc. cbn [DateTime.instant].
      pose proof (days_of_whole_days now (issue_threshold_days (obj w))) as Hd.
      unfold DateTime.days, us_per_day, us_per_hour in Hd.
      rewrite Hd. lia.
    + destruct (filter _ _); simpl; split; try discriminate; auto.
    + intros ->. reflexivity.
  - intros issue utc Hin Hc.
    destruct (analyze_issues_node_aware env w) as (w' & Hrun & Hobj & _).
    + apply (forallb_false_In _ _ issue Hin).
      unfold naive_issue. rewrite Hc. reflexivity.
    + exists w'. split; assumption.
Qed.

Lemma analyze_issues_selects_stale_witness :
  let env := Sample.env_of (Raise Sample.SourceUnavailable) true in
  let fetched := Sample.create_test_issues Sample.now0 in
  (forall k, clock env k = Sample.now0) /\
  (exists w',
      _analyze_issues_node env
        (Sample.world_of (set_open_issues fetched Sample.state0))
      = (Ok tt, w') /\
      map Issue.number (alert_issues (obj w')) = [1] /\
      should_send_issue_alert (obj w') = true) /\
  (exists e w',
      _analyze_issues_node env
        (Sample.world_of
           (set_open_issues (fetched ++ [Sample.issue_aware Sample.now0])
              Sample.state0))
      = (Raise e, w') /\
      exn_class e = "TypeError" /\
      alert_issues (obj w') = []).
Proof.
  cbv zeta. split; [intros k; reflexivity |]. split.
  - destruct (analyze_issues_selects_stale
                (Sample.env_of (Raise Sample.SourceUnavailable) true) Sample.now0
                (Sample.world_of
                   (set_open_issues (Sample.create_test_issues Sample.now0)
                                    Sample.state0))
                (fun _ => eq_refl))
      as [Hsel _].
    destruct Hsel as (w' & Hrun & Hsel & _ & _ & Hflag & _).
    { intros issue [<- | [<- | []]]; eexists; reflexivity. }
    exists w'. split; [exact Hrun |]. split.
    + rewrite Hsel. vm_compute. reflexivity.
    + apply Hflag. rewrite Hsel. vm_compute. discriminate.
  - destruct (analyze_issues_selects_stale
                (Sample.env_of (Raise Sample.SourceUnavailable) true) Sample.now0
                (Sample.world_of
                   (set_open_issues
                      (Sample.create_test_issues Sample.now0
                       ++ [Sample.issue_aware Sample.now0])
                      Sample.state0))
                (fun _ => eq_refl))
      as [_ Haware].
    destruct (Haware (Sample.issue_aware Sample.now0)
                     (Sample.now0 - DateTime.of_days 10))
      as (w' & Hrun & Hobj).
    { cbn. auto. }
    { reflexivity. }
    eexists. exists w'. split; [exact Hrun |]. split; [reflexivity |].
    rewrite Hobj. reflexivity.
Defined.

(** C3. The PR-analysis node returns normally and selects exactly the
    fetched PRs with [merged_at] present or [closed_at] present, in fetch
    order; a PR with neither is never selected, a PR with [closed_at] but no
    [merged_at] is selected, and the should-notify flag is true iff the
    selection is non-empty. *)
Theorem analyze_prs_selects_reportable (w : World) :
  exists w',
    _analyze_prs_node w = (Ok tt, w') /\
    notification_prs (obj w') =
      filter (fun pr =>
                match PullRequest.merged_at pr, PullRequest.closed_at pr with
                | None, None => false
                | _, _ => true
                end)
             (recent_prs (obj w)) /\
    (forall pr,
        In pr (notification_prs (obj w')) <->
        In pr (recent_prs (obj w)) /\
        (PullRequest.is_merged pr = true \/ PullRequest.closed_at pr <> None)) /\
    (forall pr,
        PullRequest.merged_at pr = None -> PullRequest.closed_at pr = None ->
        ~ In pr (notification_prs (obj w'))) /\
    (forall pr closed,
        In pr (recent_prs (obj w)) ->
        PullRequest.merged_at pr = None ->
        PullRequest.closed_at pr = Some closed ->
        In pr (notification_prs (obj w'))) /\
    (should_send_pr_notification (obj w') = true <->
     notification_prs (obj w') <> []).
Proof.
  eexists. split; [apply analyze_prs_node_spec |]. cbn.
  assert (Hin : forall pr,
             In pr (filter reportable (recent_prs (obj w))) <->
             In pr (recent_prs (obj w)) /\
             (PullRequest.is_merged pr = true \/ PullRequest.closed_at pr <> None)).
  { intros pr. rewrite filter_In_iff.
    unfold reportable, PullRequest.is_merged, truthy.
    destruct (PullRequest.merged_at pr), (PullRequest.closed_at pr); simpl;
      intuition congruence. }
  split.
  { apply filter_ext. intros pr.
    unfold reportable, PullRequest.is_merged, truthy.
    destruct (PullRequest.merged_at pr), (PullRequest.closed_at pr); reflexivity. }
  split; [exact Hin |].
  split; [| split].
  - intros pr Hm Hc Hsel. apply Hin in Hsel as [_ [H | H]].
    + unfold PullRequest.is_merged in H. rewrite Hm in H. discriminate.
    + now apply H.
  - intros pr closed Hi _ Hc. apply Hin. split; [exact Hi |].
    right. rewrite Hc. discriminate.
  - destruct (filter _ _); simpl; split; try discriminate; auto.
Qed.

(** ** Finalization: [_update_state_node] *)

Lemma update_state_node_spec (env : Env) (w : World) :
  _update_state_node env w =
  (Ok tt,
   let reset s :=
     set_notification_prs []
       (set_alert_issues []
          (set_should_send_pr_notification false
             (set_should_send_issue_alert false s))) in
   if nonempty (sent_notifications (obj w))
   then {| obj := reset (set_last_email_sent (Some (clock env (tick w))) (obj w));
           tick := S (tick w); trace := trace w; outbox := outbox w |}
   else {| obj := reset (obj w);
           tick := tick w; trace := trace w; outbox := outbox w |}).
Proof.
  unfold _update_state_node, bind, get_state, modify, datetime_now, ask, ret.
  destruct (nonempty (sent_notifications (obj w))); reflexivity.
Qed.

(** C1 fails on the code. Finalization returns normally and never changes
    [sent_notifications]; it stores the clock reading in [last_email_sent]
    whenever [sent_notifications] is non-empty at that moment, and leaves
    [last_email_sent] as it was when the list is empty. So, with the list
    made of what was there at the start of the cycle followed by what the
    cycle gained: the reading is stored when something was gained, both
    fields are left alone when nothing was gained on an empty list, and
    the reading is stored all the same when nothing was gained on a list
    that was not empty. *)
Theorem update_state_last_email_sent (env : Env) (w : World) :
  exists w',
    _update_state_node env w = (Ok tt, w') /\
    sent_notifications (obj w') = sent_notifications (obj w) /\
    (sent_notifications (obj w) <> [] ->
     last_email_sent (obj w') = Some (clock env (tick w))) /\
    (sent_notifications (obj w) = [] ->
     last_email_sent (obj w') = last_email_sent (obj w)) /\
    (forall at_start gained,
        sent_notifications (obj w) = (at_start ++ gained)%list ->
        (gained <> [] -> last_email_sent (obj w') = Some (clock env (tick w))) /\
        (gained = [] -> at_start = [] ->
         last_email_sent (obj w') = last_email_sent (obj w) /\
         sent_notifications (obj w') = at_start) /\
        (gained = [] -> at_start <> [] ->
         last_email_sent (obj w') = Some (clock env (tick w)) /\
         sent_notifications (obj w') = at_start)).
Proof.
  eexists. split; [apply update_state_node_spec |].
  destruct (sent_notifications (obj w)) as [| n ns] eqn:Hs; cbn; rewrite ?Hs.
  - split; [reflexivity |]. split; [intros H; now elim H |].
    split; [reflexivity |].
    intros at_start gained Hg. symmetry in Hg.
    apply app_eq_nil in Hg as [-> ->].
    split; [intros H; now elim H |].
    split; [auto | intros _ H; now elim H].
  - split; [reflexivity |]. split; [reflexivity |].
    split; [discriminate |].
    intros at_start gained Hg.
    split; [reflexivity |]. split.
    + intros -> ->. discriminate Hg.
    + intros ->. rewrite app_nil_r in Hg. intros _. split; [reflexivity | exact Hg].
Qed.

(** The failing input of C1: finalization entered with one notification
    kept from an earlier cycle, no [last_email_sent], and nothing sent in
    this cycle. [sent_notifications] is unchanged, yet [last_email_sent] is
    now set. *)
Example update_state_after_quiet_cycle :
  let env := Sample.env_of (Ok (Sample.repo_with [] (Ok []))) true in
  let s := set_sent_notifications ["issue_alert_2023-11-01T09:00:00"]
             Sample.state0 in
  exists w',
    _update_state_node env (Sample.world_of s) = (Ok tt, w') /\
    outbox w' = [] /\
    sent_notifications (obj w') = sent_notifications s /\
    last_email_sent s = None /\
    last_email_sent (obj w') = Some Sample.now0.
Proof.
  cbv zeta. eexists. split; [vm_compute; reflexivity |]. repeat split.
Qed.

(** C4, as amended. After finalization both decision flags are false and
    both selected lists are empty; the fetched issues and pull requests,
    the identity and configuration fields and [sent_notifications] are as
    before, and a [last_email_sent] that was present is still present. *)
Theorem update_state_resets_workflow_fields (env : Env) (w : World) :
  exists w',
    _update_state_node env w = (Ok tt, w') /\
    should_send_issue_alert (obj w') = false /\
    should_send_pr_notification (obj w') = false /\
    alert_issues (obj w') = [] /\
    notification_prs (obj w') = [] /\
    open_issues (obj w') = open_issues (obj w) /\
    recent_prs (obj w') = recent_prs (obj w) /\
    repo_owner (obj w') = repo_owner (obj w) /\
    repo_name (obj w') = repo_name (obj w) /\
    github_token (obj w') = github_token (obj w) /\
    issue_threshold_days (obj w') = issue_threshold_days (obj w) /\
    email_recipients (obj w') = email_recipients (obj w) /\
    smtp_host (obj w') = smtp_host (obj w) /\
    smtp_port (obj w') = smtp_port (obj w) /\
    email_username (obj w') = email_username (obj w) /\
    email_password (obj w') = email_password (obj w) /\
    sent_notifications (obj w') = sent_notifications (obj w) /\
    (last_email_sent (obj w) <> None -> last_email_sent (obj w') <> None).
Proof.
  eexists. split; [apply update_state_node_spec |].
  destruct (nonempty (sent_notifications (obj w))); cbn;
    repeat (split; [reflexivity |]); auto; discriminate.
Qed.

(** C4, as stated, fails: the fetched issues and pull requests survive
    finalization. *)
Lemma update_state_resets_workflow_fields_counterexample :
  let env := Sample.env_of (Raise Sample.SourceUnavailable) true in
  let s := set_recent_prs (Sample.create_test_prs Sample.now0)
             (set_open_issues (Sample.create_test_issues Sample.now0)
                Sample.state0) in
  exists w',
    _update_state_node env (Sample.world_of s) = (Ok tt, w') /\
    open_issues (obj w') <> [] /\
    recent_prs (obj w') <> [].
Proof.
  cbv zeta. eexists. split; [vm_compute; reflexivity |].
  split; discriminate.
Qed.

(** C7. With the clock standing still, entering finalization a second time
    leaves the state object exactly as the first entry left it. *)
Theorem update_state_idempotent (env : Env) (now : datetime) (w : World) :
  (forall k, clock env k = now) ->
  exists w1 w2,
    _update_state_node env w = (Ok tt, w1) /\
    _update_state_node env w1 = (Ok tt, w2) /\
    obj w2 = obj w1.
Proof.
  intros Hclk. eexists. eexists.
  split; [apply update_state_node_spec |].
  split; [apply update_state_node_spec |].
  cbv zeta.
  destruct (nonempty (sent_notifications (obj w))) eqn:Hne; cbn;
    rewrite Hne; cbn; rewrite ?Hclk; reflexivity.
Qed.

Lemma update_state_idempotent_witness :
  let env := Sample.env_of (Raise Sample.SourceUnavailable) true in
  let w := Sample.world_of
             (set_should_send_issue_alert true
                (set_alert_issues (Sample.create_test_issues Sample.now0)
                   (set_sent_notifications ["issue_alert_2023-11-14T22:13:20"]
                      Sample.state0))) in
  (forall k, clock env k = Sample.now0) /\
  exists w1 w2,
    _update_state_node env w = (Ok tt, w1) /\
    _update_state_node env w1 = (Ok tt, w2) /\
    obj w2 = obj w1.
Proof.
  cbv zeta. split; [intros k; reflexivity |].
  apply (update_state_idempotent
           (Sample.env_of (Raise Sample.SourceUnavailable) true) Sample.now0).
  intros k; reflexivity.
Defined.

(** ** The send nodes *)

Lemma send_issue_alert_node_spec (env : Env) (w : World) :
  _send_issue_alert_node env w =
  (Ok tt,
   let mail := IssueAlertMail (email_recipients (obj w)) (alert_issues (obj w))
                 (repo_name (obj w)) (repo_url_of (obj w))
                 (issue_threshold_days (obj w)) in
   if smtp_delivers env (tick w) mail
   then {| obj := set_sent_notifications
                    (sent_notifications (obj w)
                     ++ ["issue_alert_" ++ isoformat env (clock env (S (tick w)))])
                    (obj w);
           tick := S (S (tick w)); trace := trace w;
           outbox := outbox w ++ [mail] |}
   else {| obj := obj w; tick := S (tick w); trace := trace w;
           outbox := outbox w ++ [mail] |}).
Proof.
  unfold _send_issue_alert_node, email_send_issue_alert, _send_email,
    bind, get_state, post, ask, datetime_now, modify, ret. cbn.
  destruct (smtp_delivers env (tick w) _); reflexivity.
Qed.

Lemma send_pr_notification_node_spec (env : Env) (w : World) :
  _send_pr_notification_node env w =
  (Ok tt,
   let mail := PRNotificationMail (email_recipients (obj w))
                 (notification_prs (obj w)) (repo_name (obj w))
                 (repo_url_of (obj w)) in
   if smtp_delivers env (tick w) mail
   then {| obj := set_sent_notifications
                    (sent_notifications (obj w)
                     ++ ["pr_notification_"
                         ++ isoformat env (clock env (S (tick w)))])
                    (obj w);
           tick := S (S (tick w)); trace := trace w;
           outbox := outbox w ++ [mail] |}
   else {| obj := obj w; tick := S (tick w); trace := trace w;
           outbox := outbox w ++ [mail] |}).
Proof.
  unfold _send_pr_notification_node, email_send_pr_notification, _send_email,
    bind, get_state, post, ask, datetime_now, modify, ret. cbn.
  destruct (smtp_delivers env (tick w) _); reflexivity.
Qed.


(** ** Fetching: [GitHubClient] and [_fetch_data_node] *)

Lemma get_open_issues_spec (env : Env) (owner name : string) (w : World) :
  get_open_issues env owner name w =
  match get_repo env (tick w) (full_name owner name) with
  | Raise e => (Raise e, advance 1 w)
  | Ok repo =>
      let fetched := get_issues repo (S (tick w)) "open" in
      match failure fetched with
      | Some e => (Raise e, advance 2 w)
      | None => (Ok (map copy_issue (yielded fetched)), advance 2 w)
      end
  end.
Proof.
  unfold get_open_issues, end_of_iteration, bind, ask_result, ask, ret, raise,
    advance. cbn.
  destruct (get_repo env (tick w) _) as [repo | e]; [| reflexivity].
  cbn. destruct (failure (get_issues repo (S (tick w)) _)); reflexivity.
Qed.

Lemma get_recent_prs_spec (env : Env) (owner name : string) (hours : Z)
    (w : World) :
  get_recent_prs env owner name hours w =
  match get_repo env (tick w) (full_name owner name) with
  | Raise e => (Raise e, advance 1 w)
  | Ok repo =>
      match DateTime.timedelta_of_hours hours with
      | Raise e => (Raise e, advance 2 w)
      | Ok span =>
          match DateTime.sub_timedelta (clock env (S (tick w))) span with
          | Raise e => (Raise e, advance 2 w)
          | Ok lookback_time =>
              let pulls := get_pulls repo (S (S (tick w))) "all" in
              match recent_prs_loop lookback_time (yielded pulls) [] with
              | Raise e => (Raise e, advance 3 w)
              | Ok prs =>
                  match failure pulls with
                  | Some e => (Raise e, advance 3 w)
                  | None => (Ok prs, advance 3 w)
                  end
              end
          end
      end
  end.
Proof.
  unfold get_recent_prs, end_of_iteration, bind, ask_result, datetime_now, ask,
    of_result, ret, raise, advance. cbn.
  destruct (get_repo env (tick w) _) as [repo | e]; [| reflexivity]. cbn.
  destruct (DateTime.timedelta_of_hours hours) as [span | e]; [| reflexivity].
  destruct (DateTime.sub_timedelta _ span) as [lookback_time | e];
    [| reflexivity].
  destruct (recent_prs_loop _ _ _) as [prs | e]; [| reflexivity].
  destruct (failure _); reflexivity.
Qed.

(** The client touches neither the state object nor the logs. *)
Lemma get_open_issues_frame (env : Env) (owner name : string) (w : World) :
  let r := get_open_issues env owner name w in
  obj (snd r) = obj w /\ trace (snd r) = trace w /\ outbox (snd r) = outbox w.
Proof.
  cbv zeta. rewrite get_open_issues_spec.
  destruct (get_repo _ _ _) as [repo | e]; [| repeat split].
  cbv zeta. destruct (failure _); repeat split.
Qed.

Lemma get_recent_prs_frame (env : Env) (owner name : string) (hours : Z)
    (w : World) :
  let r := get_recent_prs env owner name hours w in
  obj (snd r) = obj w /\ trace (snd r) = trace w /\ outbox (snd r) = outbox w.
Proof.
  cbv zeta. rewrite get_recent_prs_spec.
  destruct (get_repo _ _ _) as [repo | e]; [| repeat split].
  destruct (DateTime.timedelta_of_hours hours) as [span | e]; [| repeat split].
  destruct (DateTime.sub_timedelta _ span) as [lookback_time | e];
    [| repeat split].
  cbv zeta. destruct (recent_prs_loop _ _ _) as [prs | e]; [| repeat split].
  destruct (failure _); repeat split.
Qed.

Lemma fetch_data_node_spec (env : Env) (config : Config) (w : World) :
  _fetch_data_node env config w =
  match get_open_issues env (repo_owner (obj w)) (repo_name (obj w)) w with
  | (Raise e, w1) => (Raise e, w1)
  | (Ok issues, w1) =>
      let w2 := with_obj (set_open_issues issues (obj w1)) w1 in
      match get_recent_prs env (repo_owner (obj w2)) (repo_name (obj w2))
                           (cfg_pr_lookback_hours config) w2 with
      | (Raise e, w3) => (Raise e, w3)
      | (Ok prs, w3) => (Ok tt, with_obj (set_recent_prs prs (obj w3)) w3)
      end
  end.
Proof.
  unfold _fetch_data_node, bind at 1 2. unfold get_state at 1.
  destruct (get_open_issues env _ _ w) as [[issues | e] w1]; [| reflexivity].
  unfold bind, modify, get_state. reflexivity.
Qed.

(** Whether it returns or raises, [fetch_data] leaves the logs, the
    identity and configuration fields and [sent_notifications] of its
    state object alone. *)
Lemma fetch_data_node_frame (env : Env) (config : Config) (w : World) :
  let w' := snd (_fetch_data_node env config w) in
  same_config (obj w) (obj w') /\
  sent_notifications (obj w') = sent_notifications (obj w) /\
  trace w' = trace w /\ outbox w' = outbox w.
Proof.
  cbv zeta. rewrite fetch_data_node_spec.
  pose proof (get_open_issues_frame env (repo_owner (obj w)) (repo_name (obj w)) w)
    as Hfi. cbv zeta in Hfi.
  destruct (get_open_issues env _ _ w) as [[issues | e] w1]; simpl in Hfi;
    destruct Hfi as (Ho1 & Ht1 & Hb1).
  - cbv zeta.
    pose proof (get_recent_prs_frame env
                  (repo_owner (obj (with_obj (set_open_issues issues (obj w1)) w1)))
                  (repo_name (obj (with_obj (set_open_issues issues (obj w1)) w1)))
                  (cfg_pr_lookback_hours config)
                  (with_obj (set_open_issues issues (obj w1)) w1)) as Hfp.
    cbv zeta in Hfp.
    destruct (get_recent_prs env _ _ _ _) as [[prs | e] w3]; simpl in Hfp;
      destruct Hfp as (Ho3 & Ht3 & Hb3); simpl;
      rewrite ?Ho3, ?Ho1, ?Ht3, ?Hb3; simpl; repeat split; assumption.
  - simpl. rewrite Ho1. repeat split; assumption.
Qed.

(** What the loop of [get_recent_prs] returns, when it returns. *)
Lemma recent_prs_loop_ok (lookback_time : datetime) :
  forall pulls acc prs,
    recent_prs_loop lookback_time pulls acc = Ok prs ->
    prs = (acc ++ map copy_pr (filter (in_window lookback_time) pulls))%list.
Proof.
  induction pulls as [| pr rest IH]; intros acc prs; simpl.
  - intros H. injection H as <-. now rewrite app_nil_r.
  - unfold merged_recently, closed_recently_unmerged, in_window, truthy.
    destruct (Github.PullRequest.merged_at pr) as [[m | m] |];
      destruct (Github.PullRequest.closed_at pr) as [[c | c] |];
      cbn [DateTime.not_before DateTime.instant negb];
      rewrite ?andb_false_r, ?andb_true_r;
      try discriminate;
      repeat match goal with
             | |- context [?a <=? ?b] => destruct (a <=? b)
             end;
      try discriminate;
      intros H; apply IH in H; rewrite H; cbn [map];
      rewrite <- ?app_assoc; reflexivity.
Qed.

(** On pull requests with naive timestamps the loop returns. *)
Lemma recent_prs_loop_naive (lookback_time : datetime) :
  forall pulls acc,
    forallb naive_pull pulls = true ->
    recent_prs_loop lookback_time pulls acc =
    Ok (acc ++ map copy_pr (filter (in_window lookback_time) pulls))%list.
Proof.
  induction pulls as [| pr rest IH]; intros acc Hnaive; simpl.
  - now rewrite app_nil_r.
  - simpl in Hnaive. apply andb_prop in Hnaive as [Hpr Hrest].
    unfold naive_pull, naive_opt in Hpr.
    unfold merged_recently, closed_recently_unmerged, in_window, truthy.
    destruct (Github.PullRequest.merged_at pr) as [[m | m] |];
      destruct (Github.PullRequest.closed_at pr) as [[c | c] |];
      try discriminate Hpr;
      cbn [DateTime.not_before DateTime.instant negb];
      rewrite ?andb_false_r, ?andb_true_r;
      repeat match goal with
             | |- context [?a <=? ?b] => destruct (a <=? b)
             end;
      rewrite (IH _ Hrest); cbn [map]; rewrite <- ?app_assoc; reflexivity.
Qed.

Lemma in_window_spec (lookback_time : datetime) (pr : Github.PullRequest.t) :
  in_window lookback_time pr = true <->
  (exists m, Github.PullRequest.merged_at pr = Some m /\
             DateTime.instant m >= lookback_time) \/
  (Github.PullRequest.merged_at pr = None /\
   exists c, Github.PullRequest.closed_at pr = Some c /\
             DateTime.instant c >= lookback_time).
Proof.
  unfold in_window.
  destruct (Github.PullRequest.merged_at pr) as [m |],
           (Github.PullRequest.closed_at pr) as [c |];
    rewrite ?Z.leb_le; split.
  all: try (intros H; left; exists m; split; [reflexivity | lia]).
  all: try (intros H; right; split;
            [reflexivity | exists c; split; [reflexivity | lia]]).
  all: try discriminate.
  all: intros [(m' & Hm & Hge) | (Hm & c' & Hc & Hge)];
    try discriminate; try (injection Hm as <-; lia);
    try (injection Hc as <-; lia).
Qed.

Lemma copy_pr_merged_at (pr : Github.PullRequest.t) :
  PullRequest.merged_at (copy_pr pr) = Github.PullRequest.merged_at pr.
Proof. reflexivity. Qed.

Lemma copy_pr_closed_at (pr : Github.PullRequest.t) :
  PullRequest.closed_at (copy_pr pr) = Github.PullRequest.closed_at pr.
Proof. reflexivity. Qed.

(** What [get_recent_prs] returns, when it returns. *)
Lemma get_recent_prs_ok (env : Env) (owner name : string) (hours : Z)
    (w w' : World) (prs : list PullRequest.t) :
  get_recent_prs env owner name hours w = (Ok prs, w') ->
  exists repo,
    get_repo env (tick w) (full_name owner name) = Ok repo /\
    DateTime.timedelta_of_hours hours = Ok (hours * 3600000000) /\
    DateTime.sub_timedelta (clock env (S (tick w))) (hours * 3600000000)
    = Ok (clock env (S (tick w)) - hours * 3600000000) /\
    failure (get_pulls repo (S (S (tick w))) "all") = None /\
    prs = map copy_pr
            (filter (in_window (clock env (S (tick w)) - hours * 3600000000))
                    (yielded (get_pulls repo (S (S (tick w))) "all"))) /\
    w' = advance 3 w.
Proof.
  rewrite get_recent_prs_spec.
  destruct (get_repo _ _ _) as [repo | e]; [| discriminate].
  unfold DateTime.timedelta_of_hours, DateTime.sub_timedelta, DateTime.hours,
    us_per_hour.
  destruct (_ && _); [| discriminate].
  destruct (_ && _); [| discriminate].
  cbv zeta.
  destruct (recent_prs_loop _ _ _) as [prs0 | e] eqn:Hloop; [| discriminate].
  destruct (failure _) eqn:Hfail; [discriminate |].
  intros H. injection H as <- <-.
  exists repo. repeat split; try reflexivity; try assumption.
  apply recent_prs_loop_ok in Hloop. exact Hloop.
Qed.

(** C8, as amended. When the repository and its pull requests can be read,
    the window is one Python can subtract from the call time, and the
    timestamps of the pull requests are naive, [get_recent_prs] returns, in
    API order, the rebuilt forms of exactly the pull requests whose
    [merged_at] is present and not earlier than the call time minus
    [lookback_hours], together with those that have no [merged_at] and
    whose [closed_at] is present and not earlier than that instant. A pull
    request whose [merged_at] is present but earlier is not returned,
    whatever its [closed_at]; in particular none with both timestamps
    earlier (or absent) is returned. *)
Theorem get_recent_prs_window (env : Env) (owner name : string)
    (lookback_hours : Z) (w : World) (repo : Repository)
    (pulls : list Github.PullRequest.t) (lookback_time : datetime) :
  get_repo env (tick w) (full_name owner name) = Ok repo ->
  get_pulls repo (S (S (tick w))) "all"
  = {| yielded := pulls; failure := None |} ->
  DateTime.timedelta_of_hours lookback_hours
  = Ok (DateTime.hours lookback_hours) ->
  DateTime.sub_timedelta (clock env (S (tick w))) (DateTime.hours lookback_hours)
  = Ok lookback_time ->
  (forall pr, In pr pulls ->
     naive_opt (Github.PullRequest.merged_at pr) = true /\
     naive_opt (Github.PullRequest.closed_at pr) = true) ->
  exists prs w',
    get_recent_prs env owner name lookback_hours w = (Ok prs, w') /\
    lookback_time = clock env (S (tick w)) - lookback_hours * 3600000000 /\
    prs = map copy_pr
            (filter (fun pr =>
                       match Github.PullRequest.merged_at pr,
                             Github.PullRequest.closed_at pr with
                       | Some m, _ => lookback_time <=? DateTime.instant m
                       | None, Some c => lookback_time <=? DateTime.instant c
                       | None, None => false
                       end) pulls) /\
    (forall pr,
        In pr prs <->
        exists fetched,
          In fetched pulls /\ pr = copy_pr fetched /\
          ((exists m, PullRequest.merged_at pr = Some (Naive m) /\
                      m >= lookback_time) \/
           (PullRequest.merged_at pr = None /\
            exists c, PullRequest.closed_at pr = Some (Naive c) /\
                      c >= lookback_time))) /\
    (forall pr m,
        PullRequest.merged_at pr = Some m ->
        DateTime.instant m < lookback_time -> ~ In pr prs) /\
    (forall pr,
        (forall m, PullRequest.merged_at pr = Some m ->
                   DateTime.instant m < lookback_time) ->
        (forall c, PullRequest.closed_at pr = Some c ->
                   DateTime.instant c < lookback_time) ->
        ~ In pr prs).
Proof.
  intros Hrepo Hpulls Hspan Hsub Hnaive.
  assert (Hall : forallb naive_pull pulls = true).
  { apply forallb_In. intros pr Hin. destruct (Hnaive pr Hin) as [Hm Hc].
    unfold naive_pull. rewrite Hm, Hc. reflexivity. }
  assert (Hlb : lookback_time
                = clock env (S (tick w)) - lookback_hours * 3600000000).
  { unfold DateTime.sub_timedelta, DateTime.hours, us_per_hour in Hsub.
    destruct (_ && _); [| discriminate]. injection Hsub as <-. reflexivity. }
  assert (Hin : forall pr,
             In pr (map copy_pr (filter (in_window lookback_time) pulls)) <->
             exists fetched,
               In fetched pulls /\ pr = copy_pr fetched /\
               ((exists m, PullRequest.merged_at pr = Some (Naive m) /\
                           m >= lookback_time) \/
                (PullRequest.merged_at pr = None /\
                 exists c, PullRequest.closed_at pr = Some (Naive c) /\
                           c >= lookback_time))).
  { intros pr. rewrite in_map_iff. split.
    - intros (fetched & <- & Hf). apply filter_In_iff in Hf as [Hf Hwin].
      exists fetched. split; [exact Hf |]. split; [reflexivity |].
      rewrite copy_pr_merged_at, copy_pr_closed_at.
      destruct (Hnaive fetched Hf) as [Hm Hc].
      apply in_window_spec in Hwin.
      destruct Hwin as [(m & Hm' & Hge) | (Hm' & c & Hc' & Hge)].
      + left. rewrite Hm' in Hm |- *. destruct m as [m | m]; [| discriminate].
        exists m. split; [reflexivity | exact Hge].
      + right. split; [exact Hm' |].
        rewrite Hc' in Hc |- *. destruct c as [c | c]; [| discriminate].
        exists c. split; [reflexivity | exact Hge].
    - intros (fetched & Hf & -> & Hwin). exists fetched.
      split; [reflexivity |]. apply filter_In_iff. split; [exact Hf |].
      apply in_window_spec.
      rewrite copy_pr_merged_at, copy_pr_closed_at in Hwin.
      destruct Hwin as [(m & Hm & Hge) | (Hm & c & Hc & Hge)].
      + left. exists (Naive m). split; assumption.
      + right. split; [exact Hm |]. exists (Naive c). split; assumption. }
  exists (map copy_pr (filter (in_window lookback_time) pulls)), (advance 3 w).
  split.
  { rewrite get_recent_prs_spec, Hrepo, Hspan, Hsub. cbv zeta.
    rewrite Hpulls. cbn [yielded failure].
    rewrite (recent_prs_loop_naive _ _ _ Hall). reflexivity. }
  split; [exact Hlb |].
  split; [reflexivity |].
  split; [exact Hin |].
  split.
  - intros pr m Hm Hlt Hpr. apply Hin in Hpr as (_ & _ & _ & H).
    destruct H as [(m' & Hm' & Hge) | (Hm' & _)]; rewrite Hm in Hm';
      [injection Hm' as ->; cbn in Hlt; lia | discriminate].
  - intros pr Hm Hc Hpr. apply Hin in Hpr as (_ & _ & _ & H).
    destruct H as [(m' & Hm' & Hge) | (_ & c & Hc' & Hge)].
    + specialize (Hm _ Hm'). cbn in Hm. lia.
    + specialize (Hc _ Hc'). cbn in Hc. lia.
Qed.

Lemma get_recent_prs_window_witness :
  let now := Sample.now0 in
  let listed := (Sample.create_test_prs now
                 ++ [Sample.pr_merged_old_closed_recent now; Sample.pr_open])%list in
  let repo := Sample.repo_with [] (Ok listed) in
  let env := Sample.env_of (Ok repo) true in
  get_repo env 0%nat (full_name "test-org" "test-repo") = Ok repo /\
  get_pulls repo 2%nat "all"
  = {| yielded := map Sample.api_pr listed; failure := None |} /\
  exists prs w',
    get_recent_prs env "test-org" "test-repo" 24 (Sample.world_of Sample.state0)
    = (Ok prs, w') /\
    map PullRequest.number prs = [10; 11].
Proof.
  cbv zeta. split; [reflexivity |]. split; [reflexivity |].
  destruct (get_recent_prs_window
              (Sample.env_of
                 (Ok (Sample.repo_with []
                        (Ok (Sample.create_test_prs Sample.now0
                             ++ [Sample.pr_merged_old_closed_recent Sample.now0;
                                 Sample.pr_open])%list))) true)
              "test-org" "test-repo" 24 (Sample.world_of Sample.state0)
              _ _ (Sample.now0 - 24 * 3600000000) eq_refl eq_refl eq_refl eq_refl)
    as (prs & w' & Hrun & _ & Hprs & _).
  { intros pr Hin. cbn in Hin.
    repeat (destruct Hin as [<- | Hin]; [split; reflexivity |]).
    contradiction. }
  exists prs, w'. split; [exact Hrun |].
  rewrite Hprs. vm_compute. reflexivity.
Defined.

(** C8, as stated, fails: a pull request merged three days ago whose
    [closed_at] is one hour old lies inside a 24-hour window by its
    [closed_at], and is not returned. *)
Lemma get_recent_prs_window_counterexample :
  let now := Sample.now0 in
  let pr := Sample.pr_merged_old_closed_recent now in
  let env := Sample.env_of (Ok (Sample.repo_with [] (Ok [pr]))) true in
  let lookback_time := now - DateTime.hours 24 in
  (exists c, PullRequest.closed_at pr = Some (Naive c) /\
             lookback_time <= c <= now) /\
  exists w',
    get_recent_prs env "test-org" "test-repo" 24 (Sample.world_of Sample.state0)
    = (Ok [], w').
Proof.
  cbv zeta. split.
  - eexists. split; [reflexivity |]. vm_compute. split; discriminate.
  - eexists. vm_compute. reflexivity.
Qed.

(** The two ways in which [get_recent_prs] raises on its own account: a
    window that the configuration check accepts but Python cannot subtract
    from the call time, and a timestamp that is aware of its time zone. *)
Example get_recent_prs_raises :
  let env := Sample.env_of
               (Ok (Sample.repo_with [] (Ok (Sample.create_test_prs Sample.now0))))
               true in
  let env_aware := Sample.env_of
               (Ok (Sample.repo_with [] (Ok [Sample.pr_aware Sample.now0])))
               true in
  let w := Sample.world_of Sample.state0 in
  exn_class_of (fst (get_recent_prs env "test-org" "test-repo" 100000000 w))
  = Some "OverflowError" /\
  exn_class_of (fst (get_recent_prs env "test-org" "test-repo"
                       (24 * 1000000000) w))
  = Some "OverflowError" /\
  exn_class_of (fst (get_recent_prs env_aware "test-org" "test-repo" 24 w))
  = Some "TypeError".
Proof. cbv zeta. repeat split; vm_compute; reflexivity. Qed.

Lemma filter_all {A : Type} (f : A -> bool) (l : list A) :
  Forall (fun x => f x = true) l -> filter f l = l.
Proof.
  induction 1 as [| x l Hx _ IH]; simpl; [| rewrite Hx, IH]; reflexivity.
Qed.

Lemma recent_prs_reportable (lookback_time : datetime)
    (pulls : list Github.PullRequest.t) :
  Forall (fun pr => reportable pr = true)
         (map copy_pr (filter (in_window lookback_time) pulls)).
Proof.
  apply Forall_forall. intros pr Hin. apply in_map_iff in Hin as (p & <- & Hp).
  apply filter_In_iff in Hp as [_ H].
  unfold reportable, PullRequest.is_merged, truthy.
  rewrite copy_pr_merged_at, copy_pr_closed_at.
  unfold in_window in H.
  destruct (Github.PullRequest.merged_at p), (Github.PullRequest.closed_at p);
    simpl in *; auto; discriminate.
Qed.

Lemma get_recent_prs_reportable (env : Env) (owner name : string) (hours : Z)
    (w0 w1 : World) (prs : list PullRequest.t) :
  get_recent_prs env owner name hours w0 = (Ok prs, w1) ->
  Forall (fun pr => reportable pr = true) prs.
Proof.
  intros H. apply get_recent_prs_ok in H as (repo & _ & _ & _ & _ & -> & _).
  apply recent_prs_reportable.
Qed.

(** C10. Every pull request that [get_recent_prs] returns has [merged_at]
    or [closed_at] present. Hence, on a state whose [recent_prs] has just
    been filled by a successful [fetch_data], the PR-analysis node selects
    every fetched pull request and sets the should-notify flag iff the
    fetched list is non-empty. *)
Theorem fetched_prs_all_selected (env : Env) (config : Config) (w w' : World) :
  _fetch_data_node env config w = (Ok tt, w') ->
  (forall owner name hours w0 w1 prs,
      get_recent_prs env owner name hours w0 = (Ok prs, w1) ->
      forall pr, In pr prs ->
        PullRequest.merged_at pr <> None \/ PullRequest.closed_at pr <> None) /\
  (forall pr, In pr (recent_prs (obj w')) ->
      PullRequest.merged_at pr <> None \/ PullRequest.closed_at pr <> None) /\
  exists w'',
    _analyze_prs_node w' = (Ok tt, w'') /\
    notification_prs (obj w'') = recent_prs (obj w') /\
    (should_send_pr_notification (obj w'') = true <-> recent_prs (obj w') <> []).
Proof.
  intros Hfetch.
  assert (Hpresent : forall pr, reportable pr = true ->
            PullRequest.merged_at pr <> None \/ PullRequest.closed_at pr <> None).
  { intros pr. unfold reportable, PullRequest.is_merged, truthy.
    destruct (PullRequest.merged_at pr), (PullRequest.closed_at pr); simpl;
      intros H; try discriminate; [left | left | right]; discriminate. }
  assert (Hall : Forall (fun pr => reportable pr = true) (recent_prs (obj w'))).
  { rewrite fetch_data_node_spec in Hfetch.
    destruct (get_open_issues _ _ _ w) as [[issues | e] w1]; [| discriminate].
    cbv zeta in Hfetch.
    destruct (get_recent_prs _ _ _ _ _) as [[prs | e] w3] eqn:Hprs;
      [| discriminate].
    injection Hfetch as <-. cbn.
    eapply get_recent_prs_reportable. exact Hprs. }
  split; [| split].
  - intros owner name hours w0 w1 prs Hprs pr Hin. apply Hpresent.
    pose proof (get_recent_prs_reportable _ _ _ _ _ _ _ Hprs) as Hf.
    rewrite Forall_forall in Hf. now apply Hf.
  - intros pr Hin. apply Hpresent. rewrite Forall_forall in Hall. now apply Hall.
  - eexists. split; [apply analyze_prs_node_spec |]. cbn.
    rewrite (filter_all _ _ Hall). split; [reflexivity |].
    destruct (recent_prs (obj w')); simpl; split; try discriminate; auto.
Qed.

Lemma fetched_prs_all_selected_witness :
  let env := Sample.env_of
               (Ok (Sample.repo_with (Sample.create_test_issues Sample.now0)
                      (Ok (Sample.create_test_prs Sample.now0
                           ++ [Sample.pr_open])%list))) true in
  exists w' w'',
    _fetch_data_node env Sample.config0 (Sample.world_of Sample.state0)
    = (Ok tt, w') /\
    _analyze_prs_node w' = (Ok tt, w'') /\
    map PullRequest.number (recent_prs (obj w')) = [10; 11] /\
    notification_prs (obj w'') = recent_prs (obj w').
Proof.
  cbv zeta. eexists.
  assert (Hfetch :
    _fetch_data_node
      (Sample.env_of
         (Ok (Sample.repo_with (Sample.create_test_issues Sample.now0)
                (Ok (Sample.create_test_prs Sample.now0
                     ++ [Sample.pr_open])%list))) true)
      Sample.config0 (Sample.world_of Sample.state0)
    = (Ok tt, _)) by (vm_compute; reflexivity).
  destruct (fetched_prs_all_selected _ _ _ _ Hfetch)
    as (_ & _ & w'' & Hrun & Hsel & _).
  exists w''. split; [exact Hfetch |]. split; [exact Hrun |].
  split; [vm_compute; reflexivity | exact Hsel].
Defined.

(** ** Running the graph *)

Lemma call_node_spec (env : Env) (config : Config) (n : Node) (w : World) :
  call_node env config n w =
  match node_action env config n (entered n w) with
  | (Ok _, w1) => (Ok (obj w1, successors n (obj w1)), with_obj (obj w) w1)
  | (Raise e, w1) => (Raise e, with_obj (obj w) w1)
  end.
Proof.
  unfold call_node, on_object, bind, get_state, enter, ret. cbn.
  fold (entered n w).
  destruct (node_action env config n (entered n w)) as [[u | e] w1];
    reflexivity.
Qed.

(** A step with one node: what the node returns becomes the state of the
    graph, and the world after the step is the world the node left. *)
Lemma supersteps_single (env : Env) (config : Config) (fuel : nat) (n : Node)
    (w w1 : World) :
  node_action env config n (entered n w) = (Ok tt, w1) ->
  supersteps env config (S fuel) [n] w
  = supersteps env config fuel (next_frontier (successors n (obj w1))) w1.
Proof.
  intros H. cbn [supersteps run_frontier]. unfold bind at 1 2 3.
  rewrite call_node_spec, H. unfold ret at 1 2.
  cbn [apply_writes]. unfold bind, put_state, modify, ret. cbn.
  destruct w1; reflexivity.
Qed.

Lemma supersteps_single_raise (env : Env) (config : Config) (fuel : nat)
    (n : Node) (w w1 : World) (e : exn) :
  node_action env config n (entered n w) = (Raise e, w1) ->
  supersteps env config (S fuel) [n] w = (Raise e, with_obj (obj w) w1).
Proof.
  intros H. cbn [supersteps run_frontier]. unfold bind at 1 2 3.
  rewrite call_node_spec, H. reflexivity.
Qed.

(** A step with two nodes never passes: the first node that raises ends
    it, and when both return their two states cannot both be written. *)
Lemma supersteps_pair (env : Env) (config : Config) (fuel : nat) (a b : Node)
    (w : World) :
  supersteps env config (S fuel) [a; b] w =
  match node_action env config a (entered a w) with
  | (Raise e, wa) => (Raise e, with_obj (obj w) wa)
  | (Ok _, wa) =>
      match node_action env config b (entered b (with_obj (obj w) wa)) with
      | (Raise e, wb) => (Raise e, with_obj (obj w) wb)
      | (Ok _, wb) => (Raise InvalidUpdateError, with_obj (obj w) wb)
      end
  end.
Proof.
  cbn [supersteps run_frontier]. unfold bind at 1 2 3.
  rewrite call_node_spec.
  destruct (node_action env config a (entered a w)) as [[ua | e] wa];
    [| reflexivity].
  unfold bind at 1 2. rewrite call_node_spec. cbn [obj with_obj].
  destruct (node_action env config b (entered b (with_obj (obj w) wa)))
    as [[ub | e] wb]; reflexivity.
Qed.

Lemma run_unfold (env : Env) (config : Config) (s0 : RepoMonitorState)
    (w : World) :
  run env config s0 w =
  match supersteps env config recursion_limit [entry_point] (with_obj s0 w) with
  | (Ok _, w') => (Ok (obj w'), w')
  | (Raise e, w') => (Raise e, w')
  end.
Proof.
  unfold run, bind at 1 2, put_state, modify. fold (with_obj s0 w).
  destruct (supersteps _ _ _ _ _) as [[u | e] w']; reflexivity.
Qed.

(** The step after [fetch_data]: both analysis nodes are triggered, and
    the step raises. *)
Lemma analysis_step (env : Env) (config : Config) (fuel : nat) (w : World) :
  exists e w',
    supersteps env config (S fuel) [analyze_issues; analyze_prs] w = (Raise e, w') /\
    obj w' = obj w /\ outbox w' = outbox w /\
    ((forallb naive_issue (open_issues (obj w)) = true /\
      e = InvalidUpdateError /\
      trace w' = (trace w ++ [analyze_issues; analyze_prs])%list)
     \/
     (forallb naive_issue (open_issues (obj w)) = false /\
      e = DateTime.TypeError
            "can't subtract offset-naive and offset-aware datetimes" /\
      trace w' = (trace w ++ [analyze_issues])%list)).
Proof.
  rewrite supersteps_pair. cbn [node_action].
  destruct (forallb naive_issue (open_issues (obj w))) eqn:Hnaive.
  - rewrite (analyze_issues_node_spec env (entered analyze_issues w) Hnaive).
    cbv zeta. rewrite analyze_prs_node_spec. cbv zeta.
    eexists. eexists. split; [reflexivity |].
    split; [reflexivity |]. split; [reflexivity |].
    left. split; [reflexivity |]. split; [reflexivity |].
    cbn. rewrite <- app_assoc. reflexivity.
  - destruct (analyze_issues_node_aware env (entered analyze_issues w) Hnaive)
      as (w1 & Hrun & _ & Htr & Hout).
    rewrite Hrun. eexists. eexists. split; [reflexivity |].
    split; [reflexivity |]. split; [exact Hout |].
    right. split; [reflexivity |]. split; [reflexivity | exact Htr].
Qed.

(** What a run comes to: the exception of [fetch_data], or that of the
    analysis step. *)
Lemma run_outcome (env : Env) (config : Config) (s0 : RepoMonitorState)
    (w : World) :
  match _fetch_data_node env config (entered fetch_data (with_obj s0 w)) with
  | (Raise e, w1) => run env config s0 w = (Raise e, with_obj s0 w1)
  | (Ok _, w1) =>
      exists e w',
        run env config s0 w = (Raise e, w') /\
        obj w' = obj w1 /\ outbox w' = outbox w1 /\
        ((forallb naive_issue (open_issues (obj w1)) = true /\
          e = InvalidUpdateError /\
          trace w' = (trace w1 ++ [analyze_issues; analyze_prs])%list)
         \/
         (forallb naive_issue (open_issues (obj w1)) = false /\
          e = DateTime.TypeError
                "can't subtract offset-naive and offset-aware datetimes" /\
          trace w' = (trace w1 ++ [analyze_issues])%list))
  end.
Proof.
  destruct (_fetch_data_node env config (entered fetch_data (with_obj s0 w)))
    as [[[] | e] w1] eqn:Hfetch.
  - destruct (analysis_step env config 23 w1) as (e & w' & Hstep & Hrest).
    exists e, w'. split; [| exact Hrest].
    rewrite run_unfold. unfold recursion_limit, entry_point.
    rewrite (supersteps_single env config 24 fetch_data _ w1 Hfetch).
    change (next_frontier (successors fetch_data (obj w1)))
      with [analyze_issues; analyze_prs].
    rewrite Hstep. reflexivity.
  - rewrite run_unfold. unfold recursion_limit, entry_point.
    rewrite (supersteps_single_raise env config 24 fetch_data _ w1 e Hfetch).
    reflexivity.
Qed.

(** ** The send stages *)

Lemma successors_send (state : RepoMonitorState) :
  successors send_issue_alert state = [Goto update_state] /\
  successors send_pr_notification state = [Goto update_state].
Proof. split; reflexivity. Qed.

(** C5 fails on the code. Called on a state, a send node does what the
    claim says: it hands exactly one mail to SMTP and returns normally;
    when SMTP reports delivery it appends the one identifier
    [issue_alert_<isoformat of the clock reading>] (for pull requests,
    [pr_notification_<...>]) to [sent_notifications] and changes nothing
    else; when SMTP reports failure the state object is left as it was; and
    its only outgoing edge leads to [update_state]. But no cycle gets that
    far. With one stale issue fetched and an SMTP server that refuses
    mail, the run raises [InvalidUpdateError] out of the step of the two
    analysis nodes: no send node and no finalization is entered, and
    nothing is handed to SMTP. *)
Theorem send_stage_contract (env : Env) (w : World) :
  let s := obj w in
  let alert := IssueAlertMail (email_recipients s) (alert_issues s)
                 (repo_name s) (repo_url_of s) (issue_threshold_days s) in
  let note := PRNotificationMail (email_recipients s) (notification_prs s)
                (repo_name s) (repo_url_of s) in
  let stamp := isoformat env (clock env (S (tick w))) in
  (exists w',
      _send_issue_alert_node env w = (Ok tt, w') /\
      outbox w' = (outbox w ++ [alert])%list /\
      (smtp_delivers env (tick w) alert = true ->
       obj w' = set_sent_notifications
                  (sent_notifications s ++ ["issue_alert_" ++ stamp]) s) /\
      (smtp_delivers env (tick w) alert = false -> obj w' = s)) /\
  (exists w',
      _send_pr_notification_node env w = (Ok tt, w') /\
      outbox w' = (outbox w ++ [note])%list /\
      (smtp_delivers env (tick w) note = true ->
       obj w' = set_sent_notifications
                  (sent_notifications s ++ ["pr_notification_" ++ stamp]) s) /\
      (smtp_delivers env (tick w) note = false -> obj w' = s)) /\
  (forall state,
      successors send_issue_alert state = [Goto update_state] /\
      successors send_pr_notification state = [Goto update_state]) /\
  (let refusing := Sample.env_of
                     (Ok (Sample.repo_with (Sample.create_test_issues Sample.now0)
                            (Ok []))) false in
   exists w',
     run refusing Sample.config0 Sample.state0 (Sample.world_of Sample.state0)
     = (Raise InvalidUpdateError, w') /\
     trace w' = [fetch_data; analyze_issues; analyze_prs] /\
     outbox w' = [] /\
     sent_notifications (obj w') = []).
Proof.
  cbv zeta. split; [| split; [| split]].
  - eexists. split; [apply send_issue_alert_node_spec |]. cbv zeta.
    destruct (smtp_delivers env (tick w) _); cbn;
      (split; [reflexivity |]); split; intros H;
      try reflexivity; discriminate.
  - eexists. split; [apply send_pr_notification_node_spec |]. cbv zeta.
    destruct (smtp_delivers env (tick w) _); cbn;
      (split; [reflexivity |]); split; intros H;
      try reflexivity; discriminate.
  - apply successors_send.
  - eexists. split; [vm_compute; reflexivity |]. repeat split.
Qed.

(** ** A failing fetch *)

(** C6. When [fetch_data] raises, the run raises that same exception, the
    only node entered is [fetch_data], nothing is handed to SMTP, and the
    state of the graph is the initial state, field for field: what the node
    had assigned to its own state object before it raised is written
    nowhere. *)
Theorem fetch_failure_aborts_cycle (env : Env) (config : Config)
    (s0 : RepoMonitorState) (w : World) (e : exn) :
  let w0 := entered fetch_data (with_obj s0 w) in
  fst (_fetch_data_node env config w0) = Raise e ->
  exists w',
    run env config s0 w = (Raise e, w') /\
    trace w' = (trace w ++ [fetch_data])%list /\
    outbox w' = outbox w /\
    obj w' = s0 /\
    sent_notifications (obj w') = sent_notifications s0 /\
    last_email_sent (obj w') = last_email_sent s0.
Proof.
  intros w0 Hraise.
  pose proof (run_outcome env config s0 w) as Hrun.
  pose proof (fetch_data_node_frame env config w0) as Hframe.
  cbv zeta in Hframe. fold w0 in Hrun.
  destruct (_fetch_data_node env config w0) as [r w1].
  simpl in Hraise, Hframe. subst r.
  destruct Hframe as (_ & _ & Htr & Hout).
  exists (with_obj s0 w1). split; [exact Hrun |].
  cbn [with_obj trace outbox obj].
  rewrite Htr, Hout. repeat split.
Qed.

Lemma fetch_failure_aborts_cycle_witness :
  let env := Sample.env_of
               (Ok (Sample.repo_with (Sample.create_test_issues Sample.now0)
                      (Raise Sample.SourceUnavailable))) true in
  let s0 := set_sent_notifications ["issue_alert_2023-11-01T09:00:00"]
              Sample.state0 in
  let w := Sample.world_of Sample.state0 in
  let left_by_node :=
    snd (_fetch_data_node env Sample.config0 (entered fetch_data (with_obj s0 w))) in
  fst (_fetch_data_node env Sample.config0 (entered fetch_data (with_obj s0 w)))
  = Raise Sample.SourceUnavailable /\
  map Issue.number (open_issues (obj left_by_node)) = [1; 2] /\
  exists w',
    run env Sample.config0 s0 w = (Raise Sample.SourceUnavailable, w') /\
    trace w' = [fetch_data] /\
    outbox w' = [] /\
    obj w' = s0 /\
    open_issues (obj w') = [].
Proof.
  cbv zeta. split; [vm_compute; reflexivity |].
  split; [vm_compute; reflexivity |].
  destruct (fetch_failure_aborts_cycle
              (Sample.env_of
                 (Ok (Sample.repo_with (Sample.create_test_issues Sample.now0)
                        (Raise Sample.SourceUnavailable))) true)
              Sample.config0
              (set_sent_notifications ["issue_alert_2023-11-01T09:00:00"]
                 Sample.state0)
              (Sample.world_of Sample.state0) Sample.SourceUnavailable eq_refl)
    as (w' & Hrun & Htr & Hout & Hobj & _).
  exists w'. split; [exact Hrun |]. split; [exact Htr |].
  split; [exact Hout |]. split; [exact Hobj |].
  rewrite Hobj. reflexivity.
Defined.

(** ** The single-shot command line *)

Lemma try_except_Exception_caught (body : M unit) (w w' : World) (e : exn) :
  body w = (Raise e, w') ->
  exn_is_Exception e = true ->
  try_except_Exception body w = (Ok tt, w').
Proof.
  intros Hbody He. unfold try_except_Exception. rewrite Hbody, He. reflexivity.
Qed.

(** Whatever exception deriving from [Exception] the cycle meets, a fetch
    failure included, [run_monitoring_cycle] returns normally and the exit
    status of the single-shot command is 0. *)
Lemma exit_status_once_swallows (env : Env) (w body_w : World) (e : exn) :
  (config <- ask_result (load_config env) ;;
   final_state <- run env config (create_initial_state config) ;;
   ret tt) w = (Raise e, body_w) ->
  exn_is_Exception e = true ->
  run_once env w = (Ok tt, body_w) /\ exit_status_once env w = 0.
Proof.
  intros Hbody He.
  unfold exit_status_once, run_once, run_monitoring_cycle.
  rewrite (try_except_Exception_caught _ w body_w e Hbody He).
  split; reflexivity.
Qed.

(** C9 fails on the code. With a configuration that loads and a GitHub API
    that rejects the token, the cycle raises out of [fetch_data], no other
    node runs, and the single-shot command still exits with status 0: the
    same status as after a cycle whose fetch succeeds. *)
Theorem exit_status_once_after_fetch_failure :
  let failing := Sample.env_of (Raise Sample.SourceUnavailable) true in
  let clean := Sample.env_of (Ok (Sample.repo_with [] (Ok []))) true in
  let w := Sample.world_of Sample.state0 in
  fst (run failing Sample.config0 (create_initial_state Sample.config0)
           (snd (ask_result (load_config failing) w)))
  = Raise Sample.SourceUnavailable /\
  trace (snd (run_once failing w)) = [fetch_data] /\
  exit_status_once failing w = 0 /\
  trace (snd (run_once clean w)) = [fetch_data; analyze_issues; analyze_prs] /\
  exit_status_once clean w = 0.
Proof.
  cbv zeta. repeat split; vm_compute; reflexivity.
Qed.

(** ** Further properties of the workflow *)

Lemma floor_days_ge (span threshold : Z) :
  threshold <= span / (24 * 3600000000) <-> threshold * (24 * 3600000000) <= span.
Proof.
  assert (Hpos : 0 < 24 * 3600000000) by lia.
  split; intros H.
  - pose proof (Z.mul_div_le span _ Hpos) as Hle. nia.
  - apply Z.div_le_lower_bound; lia.
Qed.

(** X1. The whole-day age test is an exact test on the creation time: with
    the clock standing at [now] and the fetched issues carrying naive
    [created_at], the node returns and an issue is selected iff it is among
    the fetched ones and was created no later than [now] minus [threshold]
    full days, to the microsecond. *)
Theorem stale_iff_created_before (env : Env) (now : datetime) (w : World) :
  (forall k, clock env k = now) ->
  (forall issue, In issue (open_issues (obj w)) ->
     exists created, Issue.created_at issue = Naive created) ->
  exists w',
    _analyze_issues_node env w = (Ok tt, w') /\
    forall issue,
      In issue (alert_issues (obj w')) <->
      exists created,
        In issue (open_issues (obj w)) /\
        Issue.created_at issue = Naive created /\
        created <= now - issue_threshold_days (obj w) * (24 * 3600000000).
Proof.
  intros Hclk Hnaive.
  assert (Hall : forallb naive_issue (open_issues (obj w)) = true).
  { apply forallb_In. intros issue Hin.
    destruct (Hnaive issue Hin) as (created & Hc).
    unfold naive_issue. rewrite Hc. reflexivity. }
  eexists. split; [apply analyze_issues_node_spec; exact Hall |].
  intros issue. cbn.
  rewrite (stale_from_stopped_clock env now _ Hclk), filter_In_iff.
  unfold stale_at, DateTime.days, us_per_day, us_per_hour.
  rewrite Z.leb_le, floor_days_ge. split.
  - intros [Hin Hle]. destruct (Hnaive issue Hin) as (created & Hc).
    exists created. rewrite Hc in Hle. cbn in Hle.
    split; [exact Hin |]. split; [exact Hc | lia].
  - intros (created & Hin & Hc & Hle). split; [exact Hin |].
    rewrite Hc. cbn. lia.
Qed.

Lemma stale_iff_created_before_witness :
  let env := Sample.env_of (Raise Sample.SourceUnavailable) true in
  let w := Sample.world_of
             (set_open_issues (Sample.create_test_issues Sample.now0)
                Sample.state0) in
  (forall k, clock env k = Sample.now0) /\
  (forall issue, In issue (open_issues (obj w)) ->
     exists created, Issue.created_at issue = Naive created) /\
  exists w',
    _analyze_issues_node env w = (Ok tt, w') /\
    forall issue,
      In issue (alert_issues (obj w')) <->
      exists created,
        In issue (open_issues (obj w)) /\
        Issue.created_at issue = Naive created /\
        created <= Sample.now0 - issue_threshold_days (obj w) * (24 * 3600000000).
Proof.
  cbv zeta.
  assert (Hnaive : forall issue,
             In issue (open_issues
                         (obj (Sample.world_of
                                 (set_open_issues
                                    (Sample.create_test_issues Sample.now0)
                                    Sample.state0)))) ->
             exists created, Issue.created_at issue = Naive created).
  { intros issue [<- | [<- | []]]; eexists; reflexivity. }
  split; [intros k; reflexivity |]. split; [exact Hnaive |].
  apply (stale_iff_created_before
           (Sample.env_of (Raise Sample.SourceUnavailable) true) Sample.now0).
  - intros k; reflexivity.
  - exact Hnaive.
Defined.

(** When the issue analysis returns, it has stored its selection and set
    the flag by it. *)
Lemma analyze_issues_node_ok (env : Env) (w w' : World) :
  _analyze_issues_node env w = (Ok tt, w') ->
  should_send_issue_alert (obj w') = nonempty (alert_issues (obj w')).
Proof.
  unfold _analyze_issues_node, bind, get_state, modify.
  destruct (analyze_issues_loop env _ _ [] w) as [[alert | e] w1];
    [| discriminate].
  intros H. injection H as <-. cbn. apply nonempty_length.
Qed.

(** X2. Analysis and routing agree: once [analyze_issues] has returned, the
    edge taken on the state it leaves leads to [send_issue_alert] exactly
    when the selection is non-empty and to [update_state] otherwise;
    [analyze_prs] always returns, and likewise leads to
    [send_pr_notification] or to [update_state]. A send node is never
    triggered with an empty selection. *)
Theorem analysis_routes_on_selection (env : Env) (w w' : World) :
  _analyze_issues_node env w = (Ok tt, w') ->
  ((alert_issues (obj w') <> [] /\
    successors analyze_issues (obj w') = [Goto send_issue_alert]) \/
   (alert_issues (obj w') = [] /\
    successors analyze_issues (obj w') = [Goto update_state])) /\
  (exists w'',
      _analyze_prs_node w = (Ok tt, w'') /\
      ((notification_prs (obj w'') <> [] /\
        successors analyze_prs (obj w'') = [Goto send_pr_notification]) \/
       (notification_prs (obj w'') = [] /\
        successors analyze_prs (obj w'') = [Goto update_state]))).
Proof.
  intros Hrun. split.
  - apply analyze_issues_node_ok in Hrun.
    unfold successors. cbn. unfold _should_send_issue_alert. rewrite Hrun.
    destruct (alert_issues (obj w')); [right | left]; split;
      try reflexivity; discriminate.
  - eexists. split; [apply analyze_prs_node_spec |].
    cbv zeta. cbn [obj with_obj].
    destruct (filter reportable _); [right | left]; split;
      try reflexivity; discriminate.
Qed.

Lemma analysis_routes_on_selection_witness :
  let env := Sample.env_of (Raise Sample.SourceUnavailable) true in
  let w := Sample.world_of
             (set_recent_prs [Sample.pr_open]
                (set_open_issues (Sample.create_test_issues Sample.now0)
                   Sample.state0)) in
  exists w' w'',
    _analyze_issues_node env w = (Ok tt, w') /\
    successors analyze_issues (obj w') = [Goto send_issue_alert] /\
    _analyze_prs_node w = (Ok tt, w'') /\
    successors analyze_prs (obj w'') = [Goto update_state].
Proof.
  cbv zeta. eexists.
  assert (Hrun :
    _analyze_issues_node (Sample.env_of (Raise Sample.SourceUnavailable) true)
      (Sample.world_of
         (set_recent_prs [Sample.pr_open]
            (set_open_issues (Sample.create_test_issues Sample.now0)
               Sample.state0)))
    = (Ok tt, _)) by (vm_compute; reflexivity).
  destruct (analysis_routes_on_selection _ _ _ Hrun)
    as (_ & w'' & Hprs & _).
  exists w''. split; [exact Hrun |]. split; [reflexivity |].
  split; [exact Hprs |].
  rewrite analyze_prs_node_spec in Hprs. injection Hprs as <-. reflexivity.
Defined.

Lemma successors_rank (n m : Node) (s : RepoMonitorState) :
  In (Goto m) (successors n s) -> (rank m < rank n)%nat.
Proof.
  unfold successors.
  destruct n; cbn;
    unfold _should_send_issue_alert, _should_send_pr_notification;
    try destruct (should_send_issue_alert s);
    try destruct (should_send_pr_notification s); cbn.
  all: intros H.
  all: repeat (destruct H as [H | H]; [inversion H; subst; cbn; lia |]).
  all: contradiction.
Qed.

Lemma successors_goto (n : Node) (s : RepoMonitorState) :
  n <> update_state -> exists m, In (Goto m) (successors n s).
Proof.
  intros Hn.
  unfold successors.
  destruct n; cbn;
    unfold _should_send_issue_alert, _should_send_pr_notification;
    try destruct (should_send_issue_alert s);
    try destruct (should_send_pr_notification s); cbn;
    try (now elim Hn); eexists; left; reflexivity.
Qed.

(** X3. The graph built by [_create_workflow] is acyclic and has no dead
    end: some measure on the nodes drops along every edge, whatever the
    state; the label a router returns is always a key of its mapping; only
    [update_state] leads to [END], and it leads nowhere else; and no edge
    leads back to [fetch_data]. *)
Theorem workflow_graph_is_a_dag :
  (exists measure : Node -> nat,
      forall n m state,
        In (Goto m) (successors n state) -> (measure m < measure n)%nat) /\
  (forall source router mapping state,
      In (source, (router, mapping)) conditional_edges ->
      lookup_label (router state) mapping <> None) /\
  (forall n state, In END (successors n state) <-> n = update_state) /\
  (forall state, successors update_state state = [END]) /\
  (forall n state, successors n state <> []) /\
  (forall n state, ~ In (Goto fetch_data) (successors n state)).
Proof.
  split; [exists rank; intros n m state; apply successors_rank |].
  split.
  { intros source router mapping state [H | [H | []]]; inversion H; subst.
    - unfold _should_send_issue_alert.
      destruct (should_send_issue_alert state); discriminate.
    - unfold _should_send_pr_notification.
      destruct (should_send_pr_notification state); discriminate. }
  split.
  { intros n state. unfold successors. split.
    - destruct n; cbn;
        unfold _should_send_issue_alert, _should_send_pr_notification;
        try destruct (should_send_issue_alert state);
        try destruct (should_send_pr_notification state); cbn;
        intuition discriminate.
    - intros ->. now left. }
  split; [reflexivity |].
  split.
  { intros n state.
    destruct (Node_eq_dec n update_state) as [-> | Hn]; [discriminate |].
    destruct (successors_goto n state Hn) as (m & Hm).
    intros Hnil. rewrite Hnil in Hm. contradiction. }
  intros n state Hin. apply successors_rank in Hin.
  destruct n; cbn in Hin; lia.
Qed.

(** X4. No cycle completes. [run] never returns a final state: it raises
    the exception of [fetch_data], or, when [fetch_data] has returned, an
    exception out of the step in which the two analysis nodes run. When the
    fetched issues carry naive [created_at], that exception is
    [InvalidUpdateError], raised after both analysis nodes have run: both
    return the whole state, and the graph takes one value per field and
    step. No send node and no finalization is ever entered, nothing is
    handed to SMTP, and [sent_notifications] and [last_email_sent] of the
    graph's state are those of the initial state. *)
Theorem run_never_returns (env : Env) (config : Config) (s0 : RepoMonitorState)
    (w : World) :
  exists e w' entered_nodes,
    run env config s0 w = (Raise e, w') /\
    trace w' = (trace w ++ entered_nodes)%list /\
    (entered_nodes = [fetch_data] \/
     entered_nodes = [fetch_data; analyze_issues] \/
     entered_nodes = [fetch_data; analyze_issues; analyze_prs]) /\
    outbox w' = outbox w /\
    sent_notifications (obj w') = sent_notifications s0 /\
    last_email_sent (obj w') = last_email_sent s0 /\
    (forall w1,
        _fetch_data_node env config (entered fetch_data (with_obj s0 w))
        = (Ok tt, w1) ->
        (forall issue, In issue (open_issues (obj w1)) ->
           exists created, Issue.created_at issue = Naive created) ->
        e = InvalidUpdateError /\
        entered_nodes = [fetch_data; analyze_issues; analyze_prs] /\
        obj w' = obj w1).
Proof.
  pose proof (run_outcome env config s0 w) as Hrun.
  pose proof (fetch_data_node_frame env config
                (entered fetch_data (with_obj s0 w))) as Hframe.
  cbv zeta in Hframe.
  assert (Hlast : forall w1,
             snd (_fetch_data_node env config (entered fetch_data (with_obj s0 w)))
             = w1 ->
             fst (_fetch_data_node env config (entered fetch_data (with_obj s0 w)))
             = Ok tt ->
             last_email_sent (obj w1) = last_email_sent s0).
  { intros w1 Hsnd Hfst. rewrite fetch_data_node_spec in Hsnd, Hfst.
    pose proof (get_open_issues_frame env
                  (repo_owner (obj (entered fetch_data (with_obj s0 w))))
                  (repo_name (obj (entered fetch_data (with_obj s0 w))))
                  (entered fetch_data (with_obj s0 w))) as Hfi.
    cbv zeta in Hfi.
    destruct (get_open_issues env _ _ _) as [[issues | e1] wa];
      [| discriminate].
    simpl in Hfi. destruct Hfi as (Hoa & _).
    cbv zeta in Hsnd, Hfst.
    pose proof (get_recent_prs_frame env
                  (repo_owner (obj (with_obj (set_open_issues issues (obj wa)) wa)))
                  (repo_name (obj (with_obj (set_open_issues issues (obj wa)) wa)))
                  (cfg_pr_lookback_hours config)
                  (with_obj (set_open_issues issues (obj wa)) wa)) as Hfp.
    cbv zeta in Hfp.
    destruct (get_recent_prs env _ _ _ _) as [[prs | e2] wb]; [| discriminate].
    simpl in Hfp. destruct Hfp as (Hob & _).
    simpl in Hsnd. subst w1. cbn. rewrite Hob. cbn. rewrite Hoa. reflexivity. }
  destruct (_fetch_data_node env config (entered fetch_data (with_obj s0 w)))
    as [[[] | e0] w1]; simpl in Hframe;
    destruct Hframe as (_ & Hsent & Htr & Hout).
  - destruct Hrun as (e & w' & Hrun & Hobj & Hout' & Hcase).
    specialize (Hlast w1 eq_refl eq_refl).
    destruct Hcase as [(Hnaive & -> & Htr') | (Haware & -> & Htr')].
    + exists InvalidUpdateError, w', [fetch_data; analyze_issues; analyze_prs].
      split; [exact Hrun |].
      split; [rewrite Htr', Htr, <- app_assoc; reflexivity |].
      split; [auto |].
      split; [congruence |].
      split; [rewrite Hobj; exact Hsent |].
      split; [rewrite Hobj; exact Hlast |].
      intros w2 Heq _. injection Heq as <-. auto.
    + eexists. exists w', [fetch_data; analyze_issues].
      split; [exact Hrun |].
      split; [rewrite Htr', Htr, <- app_assoc; reflexivity |].
      split; [auto |].
      split; [congruence |].
      split; [rewrite Hobj; exact Hsent |].
      split; [rewrite Hobj; exact Hlast |].
      intros w2 Heq Hnaive. injection Heq as <-.
      assert (Hall : forallb naive_issue (open_issues (obj w1)) = true).
      { apply forallb_In. intros issue Hin.
        destruct (Hnaive issue Hin) as (created & Hc).
        unfold naive_issue. rewrite Hc. reflexivity. }
      rewrite Hall in Haware. discriminate.
  - exists e0, (with_obj s0 w1), [fetch_data].
    split; [exact Hrun |].
    split; [exact Htr |].
    split; [auto |].
    split; [exact Hout |].
    split; [reflexivity |]. split; [reflexivity |].
    intros w2 Heq. discriminate.
Qed.

(** *** What a whole cycle keeps *)

Section Preservation.

Variable env : Env.
Variable config : Config.
Variable R : World -> World -> Prop.
Hypothesis R_refl : forall w, R w w.
Hypothesis R_trans : forall w1 w2 w3, R w1 w2 -> R w2 w3 -> R w1 w3.
Hypothesis R_node :
  forall n w, R w (snd (node_action env config n (entered n w))).
Hypothesis R_dropped : forall w w1, R w w1 -> R w (with_obj (obj w) w1).

Lemma call_node_preserves (n : Node) (w : World) :
  R w (snd (call_node env config n w)) /\
  obj (snd (call_node env config n w)) = obj w.
Proof.
  rewrite call_node_spec. pose proof (R_node n w) as Hn.
  destruct (node_action env config n (entered n w)) as [[u | e] w1];
    simpl in *; split; try reflexivity; apply R_dropped; exact Hn.
Qed.

Lemma run_frontier_preserves :
  forall frontier w,
    R w (snd (run_frontier env config frontier w)) /\
    obj (snd (run_frontier env config frontier w)) = obj w.
Proof.
  induction frontier as [| n rest IH]; intros w; cbn [run_frontier].
  - split; [apply R_refl | reflexivity].
  - unfold bind. destruct (call_node_preserves n w) as [Hn Ho].
    destruct (call_node env config n w) as [[written | e] w1];
      [| split; assumption].
    simpl in Hn, Ho. destruct (IH w1) as [Hrest Ho'].
    destruct (run_frontier env config rest w1) as [[others | e] w2];
      simpl in *; (split; [eapply R_trans; eauto | congruence]).
Qed.

(** One step: the nodes of the frontier are called and their states
    written back. *)
Lemma step_preserves (frontier : list Node) (w : World) :
  R w (snd (bind (run_frontier env config frontier) apply_writes w)).
Proof.
  destruct frontier as [| a [| b rest]].
  - apply R_refl.
  - cbn [run_frontier]. unfold bind at 1 2 3. rewrite call_node_spec.
    pose proof (R_node a w) as Hn.
    destruct (node_action env config a (entered a w)) as [[u | e] w1];
      simpl in Hn.
    + unfold ret at 1 2. cbn [apply_writes].
      unfold bind, put_state, modify, ret. cbn.
      destruct w1; exact Hn.
    + simpl. apply R_dropped. exact Hn.
  - unfold bind at 1.
    destruct (run_frontier_preserves (a :: b :: rest) w) as [Hfr _].
    destruct (run_frontier env config (a :: b :: rest) w)
      as [[writes | e] w1] eqn:Hrun; [| exact Hfr].
    assert (Hlen : exists x y more, writes = x :: y :: more).
    { cbn [run_frontier] in Hrun. unfold bind in Hrun.
      destruct (call_node env config a w) as [[wa | e] w2]; [| discriminate].
      destruct (call_node env config b w2) as [[wb | e] w3]; [| discriminate].
      destruct (run_frontier env config rest w3) as [[more | e] w4];
        [| discriminate].
      unfold ret in Hrun. injection Hrun as <- _. eauto. }
    destruct Hlen as (x & y & more & ->). destruct x as [sx tx]. exact Hfr.
Qed.

Lemma supersteps_preserves :
  forall fuel frontier w, R w (snd (supersteps env config fuel frontier w)).
Proof.
  induction fuel as [| fuel IH]; intros frontier w;
    destruct frontier as [| n rest]; cbn [supersteps]; try apply R_refl.
  pose proof (step_preserves (n :: rest) w) as Hstep.
  unfold bind at 1 2. unfold bind at 1 in Hstep.
  destruct (run_frontier env config (n :: rest) w) as [[writes | e] w1];
    [| exact Hstep].
  destruct (apply_writes writes w1) as [[ts | e] w2]; [| exact Hstep].
  eapply R_trans; [exact Hstep | apply IH].
Qed.

Lemma run_preserves (s0 : RepoMonitorState) (w : World) :
  R (with_obj s0 w) (snd (run env config s0 w)).
Proof.
  rewrite run_unfold.
  pose proof (supersteps_preserves recursion_limit [entry_point] (with_obj s0 w))
    as H.
  destruct (supersteps _ _ _ _ _) as [[u | e] w']; exact H.
Qed.

End Preservation.

Lemma grows_refl (w : World) : grows w w.
Proof. exists [], []. rewrite !app_nil_r. auto. Qed.

Lemma grows_trans (w1 w2 w3 : World) : grows w1 w2 -> grows w2 w3 -> grows w1 w3.
Proof.
  intros (g1 & m1 & Hs1 & Ho1 & Hl1) (g2 & m2 & Hs2 & Ho2 & Hl2).
  exists (g1 ++ g2)%list, (m1 ++ m2)%list.
  rewrite Hs2, Hs1, Ho2, Ho1, <- !app_assoc, !length_app.
  repeat split; lia.
Qed.

(** What any node leaves of the world it is given, whether it returns or
    raises. *)
Lemma node_action_effect (env : Env) (config : Config) (n : Node) (w : World) :
  let w' := snd (node_action env config n w) in
  same_config (obj w) (obj w') /\
  grows w w' /\
  trace w' = trace w.
Proof.
  assert (Hstay : forall w', sent_notifications (obj w') = sent_notifications (obj w) ->
                             outbox w' = outbox w -> grows w w').
  { intros w' Hs Ho. exists [], []. rewrite !app_nil_r. auto. }
  cbv zeta. destruct n; cbn [node_action].
  - destruct (fetch_data_node_frame env config w) as (Hc & Hs & Ht & Hb).
    split; [exact Hc |]. split; [apply Hstay; assumption | exact Ht].
  - destruct (analyze_issues_node_frame env w) as (Hc & Hs & Ht & Hb).
    split; [exact Hc |]. split; [apply Hstay; assumption | exact Ht].
  - rewrite analyze_prs_node_spec. simpl.
    split; [repeat split |]. split; [apply Hstay; reflexivity | reflexivity].
  - rewrite send_issue_alert_node_spec. cbv zeta. simpl.
    destruct (smtp_delivers env (tick w) _); simpl.
    + split; [repeat split |]. split; [| reflexivity].
      eexists [_], [_]. simpl. auto.
    + split; [repeat split |]. split; [| reflexivity].
      eexists [], [_]. rewrite app_nil_r. simpl. auto.
  - rewrite send_pr_notification_node_spec. cbv zeta. simpl.
    destruct (smtp_delivers env (tick w) _); simpl.
    + split; [repeat split |]. split; [| reflexivity].
      eexists [_], [_]. simpl. auto.
    + split; [repeat split |]. split; [| reflexivity].
      eexists [], [_]. rewrite app_nil_r. simpl. auto.
  - rewrite update_state_node_spec. cbv zeta. simpl.
    destruct (nonempty (sent_notifications (obj w))) eqn:Hne; simpl;
      (split; [repeat split |]); (split; [apply Hstay; reflexivity | reflexivity]).
Qed.

Lemma entered_node_effect (env : Env) (config : Config) (n : Node) (w : World) :
  let w' := snd (node_action env config n (entered n w)) in
  same_config (obj w) (obj w') /\ grows w w'.
Proof.
  cbv zeta.
  destruct (node_action_effect env config n (entered n w))
    as (Hc & (g & m & Hs & Ho & Hl) & _).
  split; [exact Hc |]. exists g, m. auto.
Qed.

(** X5. A cycle never changes the identity and configuration part of the
    state: owner, repository name, token, threshold, recipients and the
    SMTP settings of the state left behind are those of the initial state,
    whether the run returns or raises. *)
Theorem cycle_keeps_config (env : Env) (config : Config)
    (s0 : RepoMonitorState) (w : World) :
  let s' := obj (snd (run env config s0 w)) in
  repo_owner s' = repo_owner s0 /\
  repo_name s' = repo_name s0 /\
  github_token s' = github_token s0 /\
  issue_threshold_days s' = issue_threshold_days s0 /\
  email_recipients s' = email_recipients s0 /\
  smtp_host s' = smtp_host s0 /\
  smtp_port s' = smtp_port s0 /\
  email_username s' = email_username s0 /\
  email_password s' = email_password s0.
Proof.
  cbv zeta.
  apply (run_preserves env config (fun w1 w2 => same_config (obj w1) (obj w2))).
  - intros w1. repeat split.
  - intros w1 w2 w3 H12 H23. unfold same_config in *.
    repeat match goal with H : _ /\ _ |- _ => destruct H end.
    repeat split; congruence.
  - intros n w1. apply entered_node_effect.
  - intros w1 w2 _. repeat split.
Qed.

(** X6. Over a whole cycle, returning or raising, [sent_notifications] and
    the log of mails handed to SMTP only grow at the end, and the cycle
    records at most as many new identifiers as it handed mails to SMTP: no
    notification is recorded without a send. *)
Theorem cycle_memory_only_grows (env : Env) (config : Config)
    (s0 : RepoMonitorState) (w : World) :
  let w' := snd (run env config s0 w) in
  exists gained mails,
    sent_notifications (obj w') = (sent_notifications s0 ++ gained)%list /\
    outbox w' = (outbox w ++ mails)%list /\
    (List.length gained <= List.length mails)%nat.
Proof.
  cbv zeta.
  apply (run_preserves env config grows grows_refl grows_trans).
  - intros n w1. apply entered_node_effect.
  - intros w1 w2 (gained & mails & _ & Hout & _).
    exists [], mails. rewrite app_nil_r. simpl. split; [reflexivity |].
    split; [exact Hout | lia].
Qed.

(** ** Further properties of the GitHub client and of [main.py] *)

Lemma in_window_monotone (earlier later : datetime) (pr : Github.PullRequest.t) :
  earlier <= later ->
  in_window later pr = true -> in_window earlier pr = true.
Proof.
  intros Hle. unfold in_window.
  destruct (Github.PullRequest.merged_at pr), (Github.PullRequest.closed_at pr);
    rewrite ?Z.leb_le; try discriminate; lia.
Qed.

(** X11. [get_recent_prs] is monotone in the lookback window: when it
    returns for two windows asked at the same moment, every pull request it
    returns with the shorter window is among those it returns with the
    longer one. *)
Theorem get_recent_prs_monotone (env : Env) (owner name : string)
    (hours1 hours2 : Z) (w w1 w2 : World) (prs1 prs2 : list PullRequest.t) :
  hours1 <= hours2 ->
  get_recent_prs env owner name hours1 w = (Ok prs1, w1) ->
  get_recent_prs env owner name hours2 w = (Ok prs2, w2) ->
  w1 = w2 /\ forall pr, In pr prs1 -> In pr prs2.
Proof.
  intros Hle H1 H2.
  apply get_recent_prs_ok in H1 as (repo1 & Hrepo1 & _ & _ & _ & -> & ->).
  apply get_recent_prs_ok in H2 as (repo2 & Hrepo2 & _ & _ & _ & -> & ->).
  rewrite Hrepo1 in Hrepo2. injection Hrepo2 as <-.
  split; [reflexivity |].
  intros pr Hin. apply in_map_iff in Hin as (fetched & <- & Hf).
  apply in_map_iff. exists fetched. split; [reflexivity |].
  apply filter_In_iff in Hf as [Hf Hwin]. apply filter_In_iff.
  split; [exact Hf |].
  eapply in_window_monotone; [| exact Hwin]. nia.
Qed.

Lemma get_recent_prs_monotone_witness :
  let now := Sample.now0 in
  let pulls := (Sample.create_test_prs now
                ++ [Sample.pr_merged_old_closed_recent now])%list in
  let env := Sample.env_of (Ok (Sample.repo_with [] (Ok pulls))) true in
  let w := Sample.world_of Sample.state0 in
  24 <= 96 /\
  exists prs1 prs2 w1,
    get_recent_prs env "test-org" "test-repo" 24 w = (Ok prs1, w1) /\
    get_recent_prs env "test-org" "test-repo" 96 w = (Ok prs2, w1) /\
    map PullRequest.number prs1 = [10; 11] /\
    map PullRequest.number prs2 = [10; 11; 12] /\
    forall pr, In pr prs1 -> In pr prs2.
Proof.
  cbv zeta. split; [lia |].
  assert (H24 :
    get_recent_prs
      (Sample.env_of
         (Ok (Sample.repo_with []
                (Ok (Sample.create_test_prs Sample.now0
                     ++ [Sample.pr_merged_old_closed_recent Sample.now0])%list)))
         true)
      "test-org" "test-repo" 24 (Sample.world_of Sample.state0)
    = (Ok _, _)) by (vm_compute; reflexivity).
  assert (H96 :
    get_recent_prs
      (Sample.env_of
         (Ok (Sample.repo_with []
                (Ok (Sample.create_test_prs Sample.now0
                     ++ [Sample.pr_merged_old_closed_recent Sample.now0])%list)))
         true)
      "test-org" "test-repo" 96 (Sample.world_of Sample.state0)
    = (Ok _, _)) by (vm_compute; reflexivity).
  destruct (get_recent_prs_monotone _ _ _ 24 96 _ _ _ _ _ ltac:(lia) H24 H96)
    as [_ Hincl].
  eexists. eexists. eexists.
  split; [exact H24 |]. split; [exact H96 |].
  split; [vm_compute; reflexivity |].
  split; [vm_compute; reflexivity | exact Hincl].
Defined.

(** X12. [run_monitoring_cycle] lets no exception deriving from [Exception]
    out, whatever fails inside the cycle. In particular, when the
    configuration cannot be loaded the cycle is over before any node is
    entered or any mail is sent, and the single-shot command still exits
    with status 0. *)
Theorem run_monitoring_cycle_swallows (env : Env) (w : World) :
  (forall e,
      fst (run_monitoring_cycle env w) = Raise e -> exn_is_Exception e = false) /\
  (forall e,
      load_config env (tick w) = Raise e ->
      exn_is_Exception e = true ->
      exists w',
        run_once env w = (Ok tt, w') /\
        obj w' = obj w /\ trace w' = trace w /\ outbox w' = outbox w /\
        exit_status_once env w = 0).
Proof.
  split.
  - intros e. unfold run_monitoring_cycle, try_except_Exception.
    destruct (bind _ _ w) as [[u | e'] w']; simpl; [discriminate |].
    destruct (exn_is_Exception e') eqn:He; simpl; [discriminate |].
    intros H. injection H as <-. exact He.
  - intros e Hload He.
    unfold exit_status_once, run_once, run_monitoring_cycle, try_except_Exception,
      bind at 1, ask_result.
    rewrite Hload, He.
    exists {| obj := obj w; tick := S (tick w); trace := trace w;
              outbox := outbox w |}.
    cbn. rewrite Hload. cbn. rewrite He. repeat split.
Qed.


(** ** The end-to-end scenarios, run on the sample data *)

(** Issues aged 10 and 3 days, threshold 7, one merged and one closed pull
    request, an SMTP server that delivers: the cycle fetches, runs both
    analysis nodes, and raises; no mail leaves. *)
Example scenario_stale_issue_and_prs :
  let env := Sample.env_of
               (Ok (Sample.repo_with (Sample.create_test_issues Sample.now0)
                      (Ok (Sample.create_test_prs Sample.now0)))) true in
  exists w',
    run env Sample.config0 Sample.state0 (Sample.world_of Sample.state0)
    = (Raise InvalidUpdateError, w') /\
    trace w' = [fetch_data; analyze_issues; analyze_prs] /\
    outbox w' = [] /\
    map Issue.number (open_issues (obj w')) = [1; 2] /\
    map PullRequest.number (recent_prs (obj w')) = [10; 11] /\
    alert_issues (obj w') = [] /\
    notification_prs (obj w') = [].
Proof. cbv zeta. eexists. split; [vm_compute; reflexivity |]. repeat split. Qed.

(** The node functions of that cycle, called one after another on one
    state object, outside the graph: one alert carrying the old issue, one
    notification carrying both pull requests, both identifiers recorded,
    and a finalized state. *)
Example scenario_nodes_in_sequence :
  let env := Sample.env_of
               (Ok (Sample.repo_with (Sample.create_test_issues Sample.now0)
                      (Ok (Sample.create_test_prs Sample.now0)))) true in
  exists w',
    (_fetch_data_node env Sample.config0 ;;;
     _analyze_issues_node env ;;;
     _analyze_prs_node ;;;
     _send_issue_alert_node env ;;;
     _send_pr_notification_node env ;;;
     _update_state_node env) (Sample.world_of Sample.state0)
    = (Ok tt, w') /\
    map (fun mail =>
           match mail with
           | IssueAlertMail _ issues _ _ _ => map Issue.number issues
           | PRNotificationMail _ prs _ _ => map PullRequest.number prs
           end) (outbox w') = [[1]; [10; 11]] /\
    sent_notifications (obj w')
    = ["issue_alert_2023-11-14T22:13:20"; "pr_notification_2023-11-14T22:13:20"] /\
    last_email_sent (obj w') = Some Sample.now0 /\
    alert_issues (obj w') = [] /\
    notification_prs (obj w') = [].
Proof. cbv zeta. eexists. split; [vm_compute; reflexivity |]. repeat split. Qed.

(** Timestamps aware of their time zone, as [2023-11-04T22:13:20+00:00]:
    the pull-request fetch already raises, and so does the cycle, out of
    [fetch_data]. *)
Example scenario_aware_timestamps :
  let env := Sample.env_of
               (Ok (Sample.repo_with [Sample.issue_aware Sample.now0]
                      (Ok [Sample.pr_aware Sample.now0]))) true in
  exists e w',
    run env Sample.config0 Sample.state0 (Sample.world_of Sample.state0)
    = (Raise e, w') /\
    exn_class e = "TypeError" /\
    trace w' = [fetch_data] /\
    exit_status_once env (Sample.world_of Sample.state0) = 0.
Proof.
  cbv zeta. eexists. eexists. split; [vm_compute; reflexivity |]. repeat split.
Qed.


(** ** The configuration manager *)

Module ConfigManagerFacts.
Import ConfigManager.

Lemma yaml_induction (P : yaml -> Prop) :
  P YNull ->
  (forall b, P (YBool b)) ->
  (forall z, P (YInt z)) ->
  (forall n, P (YOther n)) ->
  (forall s, P (YStr s)) ->
  (forall items, Forall P items -> P (YList items)) ->
  (forall items, Forall (fun kv => P (snd kv)) items -> P (YDict items)) ->
  forall t, P t.
Proof.
  intros Hnull Hbool Hint Hother Hstr Hlist Hdict.
  fix IH 1. intros [| b | z | n | s | items | items].
  - exact Hnull.
  - apply Hbool.
  - apply Hint.
  - apply Hother.
  - apply Hstr.
  - apply Hlist. induction items as [| x xs IHxs]; constructor;
      [apply IH | exact IHxs].
  - apply Hdict. induction items as [| [k v] xs IHxs]; constructor;
      [apply IH | exact IHxs].
Qed.

Lemma find_app_first {A : Type} (f : A -> bool) (l1 l2 : list A) :
  find f (l1 ++ l2) = match find f l1 with Some x => Some x | None => find f l2 end.
Proof.
  induction l1 as [| x l1 IH]; simpl; [reflexivity |].
  destruct (f x); [reflexivity | exact IH].
Qed.

(** [_substitute_env_vars] as one equation: the first unresolved
    placeholder decides. *)
Lemma substitute_env_vars_spec (getenv : string -> option string)
    (t : yaml) :
  _substitute_env_vars getenv t =
  match find (unresolved getenv) (strings_of t) with
  | Some s =>
      Raise (ValueError
               ("Environment variable " ++ slice_2_to_last s
                ++ " not found"))
  | None => Ok (replace_strings (resolve getenv) t)
  end.
Proof.
  induction t as [| b | z | n | s | items IH | items IH] using yaml_induction;
    try reflexivity.
  - cbn. unfold unresolved, resolve.
    destruct (is_placeholder s); [| reflexivity].
    destruct (getenv (slice_2_to_last s)); reflexivity.
  - cbn [_substitute_env_vars strings_of
         replace_strings].
    induction IH as [| x xs Hx _ IHxs]; [reflexivity |].
    cbn [flat_map map]. rewrite find_app_first, Hx.
    destruct (find _ (strings_of x)); [reflexivity |].
    destruct (find _ (flat_map strings_of xs)) eqn:Hf.
    + match type of IHxs with
      | match ?m with _ => _ end = _ => destruct m; [discriminate | ] end.
      injection IHxs as ->. reflexivity.
    + match type of IHxs with
      | match ?m with _ => _ end = _ => destruct m; [| discriminate] end.
      injection IHxs as ->. reflexivity.
  - cbn [_substitute_env_vars strings_of
         replace_strings].
    induction IH as [| [k v] xs Hx _ IHxs]; [reflexivity |].
    cbn [flat_map map fst snd]. cbn [snd] in Hx. rewrite find_app_first, Hx.
    destruct (find _ (strings_of v)); [reflexivity |].
    destruct (find _ (flat_map _ xs)) eqn:Hf.
    + match type of IHxs with
      | match ?m with _ => _ end = _ => destruct m; [discriminate | ] end.
      injection IHxs as ->. reflexivity.
    + match type of IHxs with
      | match ?m with _ => _ end = _ => destruct m; [| discriminate] end.
      injection IHxs as ->. reflexivity.
Qed.

Lemma replace_strings_fixes (f : string -> string) (t : yaml) :
  (forall s, In s (strings_of t) -> f s = s) -> replace_strings f t = t.
Proof.
  induction t as [| b | z | n | s | items IH | items IH] using yaml_induction;
    intros Hf; try reflexivity.
  - cbn. rewrite Hf; [reflexivity | now left].
  - cbn [replace_strings]. f_equal. cbn [strings_of] in Hf.
    induction IH as [| x xs Hx _ IHxs]; [reflexivity |].
    cbn [map]. cbn [flat_map] in Hf. rewrite Hx, IHxs; [reflexivity | |];
      intros s Hs; apply Hf; apply in_or_app; auto.
  - cbn [replace_strings]. f_equal. cbn [strings_of] in Hf.
    induction IH as [| [k v] xs Hx _ IHxs]; [reflexivity |].
    cbn [map fst snd]. cbn [flat_map snd] in Hf. cbn [snd] in Hx.
    rewrite Hx, IHxs; [reflexivity | |];
      intros s Hs; apply Hf; apply in_or_app; auto.
Qed.

Lemma strings_of_replace (f : string -> string) (t : yaml) :
  strings_of (replace_strings f t) = map f (strings_of t).
Proof.
  induction t as [| b | z | n | s | items IH | items IH] using yaml_induction;
    try reflexivity.
  - cbn [replace_strings strings_of].
    induction IH as [| x xs Hx _ IHxs]; [reflexivity |].
    cbn [map flat_map]. rewrite map_app, Hx, IHxs. reflexivity.
  - cbn [replace_strings strings_of].
    induction IH as [| [k v] xs Hx _ IHxs]; [reflexivity |].
    cbn [map flat_map fst snd]. cbn [snd] in Hx.
    rewrite map_app, Hx, IHxs. reflexivity.
Qed.

Lemma find_none_iff {A : Type} (f : A -> bool) (l : list A) :
  find f l = None <-> forall x, In x l -> f x = false.
Proof.
  split.
  - intros H x Hin. eapply find_none; eauto.
  - induction l as [| a l IH]; intros H; simpl; [reflexivity |].
    rewrite (H a (or_introl eq_refl)). apply IH. intros x Hx. apply H. now right.
Qed.

(** X14. What [_substitute_env_vars] returns. If some string leaf of the
    document is a placeholder whose variable is not set, it raises the
    [ValueError] naming the variable of the first such leaf in the order of
    traversal. Otherwise it returns the same document, with the same
    mappings, keys, lists and scalars, in which every placeholder leaf is
    replaced by the value of its variable and every other string is left
    as it was. *)
Theorem substitute_env_vars_outcome (getenv : string -> option string)
    (t : yaml) :
  (forall s,
      find (unresolved getenv) (strings_of t) = Some s ->
      _substitute_env_vars getenv t
      = Raise (ValueError ("Environment variable " ++ slice_2_to_last s
                           ++ " not found"))) /\
  ((forall s, In s (strings_of t) -> unresolved getenv s = false) ->
   _substitute_env_vars getenv t = Ok (replace_strings (resolve getenv) t)) /\
  (forall e,
      _substitute_env_vars getenv t = Raise e ->
      exists s, In s (strings_of t) /\ unresolved getenv s = true) /\
  (forall t',
      _substitute_env_vars getenv t = Ok t' ->
      strings_of t' = map (resolve getenv) (strings_of t)).
Proof.
  split; [| split; [| split]].
  - intros s Hfind. rewrite substitute_env_vars_spec, Hfind. reflexivity.
  - intros Hset. apply find_none_iff in Hset.
    rewrite substitute_env_vars_spec, Hset. reflexivity.
  - intros e. rewrite substitute_env_vars_spec.
    destruct (find (unresolved getenv) (strings_of t)) as [s |] eqn:Hfind;
      [| discriminate].
    intros _. exists s. apply find_some in Hfind. exact Hfind.
  - intros t'. rewrite substitute_env_vars_spec.
    destruct (find (unresolved getenv) (strings_of t)); [discriminate |].
    intros H. injection H as <-. apply strings_of_replace.
Qed.

(** X13. A document none of whose string leaves is a whole-string
    placeholder (one that starts with "${" and ends with "}") is returned
    unchanged, whatever the environment: text around a placeholder, as in
    "token-${VAR}", prevents the substitution. *)
Theorem substitute_env_vars_without_placeholders (getenv : string -> option string)
    (t : yaml) :
  (forall s, In s (strings_of t) -> is_placeholder s = false) ->
  _substitute_env_vars getenv t = Ok t.
Proof.
  intros Hnone. rewrite substitute_env_vars_spec.
  assert (Hfind : find (unresolved getenv) (strings_of t) = None).
  { apply find_none_iff. intros s Hs. unfold unresolved. now rewrite Hnone. }
  rewrite Hfind. f_equal. apply replace_strings_fixes.
  intros s Hs. unfold resolve. now rewrite Hnone.
Qed.

(** X15. Substitution is a single pass. When no environment value is
    itself a placeholder, the document returned contains no placeholder any
    more and substituting again returns it unchanged. *)
Theorem substitute_env_vars_settles (getenv : string -> option string)
    (t t' : yaml) :
  (forall name value, getenv name = Some value -> is_placeholder value = false) ->
  _substitute_env_vars getenv t = Ok t' ->
  _substitute_env_vars getenv t' = Ok t' /\
  forall s, In s (strings_of t') -> is_placeholder s = false.
Proof.
  intros Henv Hsub. rewrite substitute_env_vars_spec in Hsub.
  destruct (find (unresolved getenv) (strings_of t)) eqn:Hfind; [discriminate |].
  injection Hsub as <-.
  assert (Hplain : forall s, In s (strings_of (replace_strings (resolve getenv) t)) ->
                             is_placeholder s = false).
  { intros s. rewrite strings_of_replace, in_map_iff.
    intros (s0 & <- & Hin).
    pose proof (proj1 (find_none_iff _ _) Hfind s0 Hin) as Hres.
    unfold unresolved in Hres. unfold resolve.
    destruct (is_placeholder s0) eqn:Hp; [| exact Hp].
    destruct (getenv (slice_2_to_last s0)) eqn:Hg; [| discriminate].
    eapply Henv. exact Hg. }
  split; [| exact Hplain].
  rewrite substitute_env_vars_spec.
  assert (Hfind' : find (unresolved getenv)
                     (strings_of (replace_strings (resolve getenv) t)) = None).
  { apply find_none_iff. intros s Hs. unfold unresolved.
    now rewrite (Hplain s Hs). }
  rewrite Hfind'. f_equal. apply replace_strings_fixes.
  intros s Hs. unfold resolve. now rewrite (Hplain s Hs).
Qed.

Lemma rbind_ok {A B : Type} (m : Result A) (k : A -> Result B) (b : B) :
  rbind m k = Ok b <-> exists a, m = Ok a /\ k a = Ok b.
Proof.
  destruct m as [a | e]; simpl; split.
  - intros H. exists a. auto.
  - intros (a' & Ha & Hk). injection Ha as <-. exact Hk.
  - discriminate.
  - intros (a' & Ha & _). discriminate.
Qed.

Lemma require_ok (condition : bool) (message : string) :
  require condition message = Ok tt <-> condition = true.
Proof. destruct condition; simpl; split; auto; discriminate. Qed.

Lemma require_all_ok (what : string) (names : list string) (container : yaml) :
  require_all what names container = Ok tt <->
  forall name, In name names -> py_contains name container = Ok true.
Proof.
  induction names as [| n rest IH]; cbn [require_all].
  - split; [intros _ name [] | reflexivity].
  - rewrite rbind_ok. split.
    + intros ([] & Hc & Hrest); [| discriminate].
      intros name [<- | Hin]; [exact Hc | now apply IH].
    + intros H. exists true. split; [apply H; now left |].
      apply IH. intros name Hin. apply H. now right.
Qed.

Lemma py_getitem_ok (container : yaml) (key : string) (v : yaml) :
  py_getitem container key = Ok v <->
  exists items, container = YDict items /\ lookup key items = Some v.
Proof.
  split.
  - destruct container; simpl; try discriminate.
    destruct (lookup key items) eqn:Hl; [| discriminate].
    intros H. injection H as <-. eauto.
  - intros (items & -> & Hl). simpl. now rewrite Hl.
Qed.

Lemma py_contains_dict (key : string) (items : list (string * yaml)) :
  py_contains key (YDict items) = Ok true <-> lookup key items <> None.
Proof.
  simpl. destruct (lookup key items); split; try discriminate; auto.
  intros H. now elim H.
Qed.

(** What an accepted configuration looks like. *)
Lemma validate_config_ok_inv (config : yaml) :
  _validate_config config = Ok tt ->
  exists items repository monitoring email threshold interval lookback port
         recipient recipients,
    config = YDict items /\
    lookup "repository" items = Some repository /\
    py_contains "owner" repository = Ok true /\
    py_contains "name" repository = Ok true /\
    py_contains "token" repository = Ok true /\
    lookup "monitoring" items = Some (YDict monitoring) /\
    lookup "issue_threshold_days" monitoring = Some threshold /\
    isinstance_int threshold = true /\
    lookup "check_interval_hours" monitoring = Some interval /\
    isinstance_int interval = true /\
    lookup "pr_lookback_hours" monitoring = Some lookback /\
    isinstance_int lookback = true /\
    lookup "email" items = Some (YDict email) /\
    lookup "smtp_host" email <> None /\
    lookup "username" email <> None /\
    lookup "password" email <> None /\
    lookup "smtp_port" email = Some port /\
    isinstance_int port = true /\
    lookup "recipients" email = Some (YList (recipient :: recipients)).
Proof.
  intros H. unfold _validate_config in H.
  repeat match goal with
         | H : rbind _ _ = Ok _ |- _ =>
             apply rbind_ok in H; destruct H as (? & ? & H)
         end.
  repeat match goal with
         | H : require_all _ _ _ = Ok _ |- _ =>
             rewrite require_all_ok in H
         | H : require _ _ = Ok _ |- _ => rewrite require_ok in H
         | H : py_getitem _ _ = Ok _ |- _ =>
             apply py_getitem_ok in H; destruct H as (? & ? & H)
         end.
  repeat match goal with u : unit |- _ => destruct u end.
  subst.
  repeat match goal with
         | H : YDict _ = YDict _ |- _ => injection H as H; subst
         end.
  repeat match goal with
         | H : require_all _ _ _ = Ok _ |- _ => rewrite require_all_ok in H
         | H : require _ _ = Ok _ |- _ => rewrite require_ok in H
         end.
  match goal with
  | H1 : lookup "recipients" ?e = Some ?a, H2 : lookup "recipients" ?e = Some ?b
    |- _ => rewrite H1 in H2; injection H2 as <-
  end.
  match goal with
  | H : isinstance_list ?v = true |- _ =>
      destruct v as [| | | | | rs |]; try discriminate H
  end.
  destruct rs as [| r rs]; [discriminate |].
  match goal with
  | Hr : forall name, In name required_repo_fields -> _,
    He : forall name, In name required_email_fields -> _ |- _ =>
      pose proof (Hr "owner" ltac:(cbn; auto)) as Howner;
      pose proof (Hr "name" ltac:(cbn; auto)) as Hname;
      pose proof (Hr "token" ltac:(cbn; auto)) as Htoken;
      pose proof (proj1 (py_contains_dict _ _) (He "smtp_host" ltac:(cbn; auto)));
      pose proof (proj1 (py_contains_dict _ _) (He "username" ltac:(cbn; auto 6)));
      pose proof (proj1 (py_contains_dict _ _) (He "password" ltac:(cbn; auto 6)))
  end.
  do 10 eexists. repeat (split; [eassumption || reflexivity |]). eassumption.
Qed.

(** X16. [_validate_config] accepts a configuration exactly when it is a
    mapping that has the three sections; the [repository] section contains
    [owner], [name] and [token]; the [monitoring] and [email] sections are
    mappings with all their required fields; the three monitoring numbers
    and [smtp_port] are instances of [int]; and [recipients] is a non-empty
    list. *)
Theorem validate_config_accepts_exactly (config : yaml) :
  _validate_config config = Ok tt <->
  exists items repository monitoring email threshold interval lookback port
         recipient recipients,
    config = YDict items /\
    lookup "repository" items = Some repository /\
    py_contains "owner" repository = Ok true /\
    py_contains "name" repository = Ok true /\
    py_contains "token" repository = Ok true /\
    lookup "monitoring" items = Some (YDict monitoring) /\
    lookup "issue_threshold_days" monitoring = Some threshold /\
    isinstance_int threshold = true /\
    lookup "check_interval_hours" monitoring = Some interval /\
    isinstance_int interval = true /\
    lookup "pr_lookback_hours" monitoring = Some lookback /\
    isinstance_int lookback = true /\
    lookup "email" items = Some (YDict email) /\
    lookup "smtp_host" email <> None /\
    lookup "username" email <> None /\
    lookup "password" email <> None /\
    lookup "smtp_port" email = Some port /\
    isinstance_int port = true /\
    lookup "recipients" email = Some (YList (recipient :: recipients)).
Proof.
  split; [apply validate_config_ok_inv |]. unfold _validate_config.
  intros (items & repository & monitoring & email & threshold & interval &
          lookback & port & recipient & recipients & -> & Hrepo & Ho & Hn & Ht &
          Hmon & Hthr & Hthr' & Hint & Hint' & Hlb & Hlb' & Hemail & Hhost &
          Huser & Hpass & Hport & Hport' & Hrec).
  assert (Hsections : require_all "configuration section" required_sections
                        (YDict items) = Ok tt).
  { apply require_all_ok. intros name [<- | [<- | [<- | []]]];
      apply py_contains_dict; congruence. }
  assert (Hrf : require_all "repository field" required_repo_fields repository
                = Ok tt).
  { apply require_all_ok. intros name [<- | [<- | [<- | []]]]; assumption. }
  assert (Hmf : require_all "monitoring field" required_monitoring_fields
                  (YDict monitoring) = Ok tt).
  { apply require_all_ok. intros name [<- | [<- | [<- | []]]];
      apply py_contains_dict; congruence. }
  assert (Hef : require_all "email field" required_email_fields (YDict email)
                = Ok tt).
  { apply require_all_ok. intros name [<- | [<- | [<- | [<- | [<- | []]]]]];
      apply py_contains_dict; congruence. }
  rewrite Hsections. cbn [rbind py_getitem]. rewrite Hrepo. cbn [rbind].
  rewrite Hrf. cbn [rbind]. rewrite Hmon. cbn [rbind].
  rewrite Hmf. cbn [rbind]. rewrite Hemail. cbn [rbind].
  rewrite Hef. cbn [rbind py_getitem].
  rewrite Hthr, Hint, Hlb, Hport, Hrec. cbn [rbind].
  rewrite Hthr', Hint', Hlb', Hport'. reflexivity.
Qed.

(** X17. Validation constrains no value beyond its type: with all fields
    present and a non-empty recipient list, every choice of integers for
    the threshold, the interval, the lookback window and the port is
    accepted, zero and negative ones included, and so are booleans in their
    place; owner, name, token, host, user name, password and the recipients
    may be any values at all. *)
Theorem validate_config_checks_no_values
    (owner name token host username password : yaml)
    (recipient : yaml) (recipients : list yaml) :
  (forall threshold interval lookback port : Z,
      _validate_config
        (config_of owner name token (YInt threshold) (YInt interval)
           (YInt lookback) host (YInt port) username password
           (recipient :: recipients)) = Ok tt) /\
  (forall threshold interval lookback port : bool,
      _validate_config
        (config_of owner name token (YBool threshold) (YBool interval)
           (YBool lookback) host (YBool port) username password
           (recipient :: recipients)) = Ok tt).
Proof. split; intros; reflexivity. Qed.

Lemma only_ValueError_rbind {A B : Type} (m : Result A) (k : A -> Result B) :
  only_ValueError m ->
  (forall a, m = Ok a -> only_ValueError (k a)) ->
  only_ValueError (rbind m k).
Proof. destruct m as [a | e]; simpl; auto. Qed.

Lemma require_all_dict_ValueError (what : string) (names : list string)
    (items : list (string * yaml)) :
  only_ValueError (require_all what names (YDict items)).
Proof.
  induction names as [| n rest IH]; cbn; [exact I |].
  destruct (lookup n items); cbn; [exact IH | reflexivity].
Qed.

Lemma require_ValueError (condition : bool) (message : string) :
  only_ValueError (require condition message).
Proof. destruct condition; cbn; auto. Qed.

Lemma getitem_after_require (what : string) (names : list string)
    (items : list (string * yaml)) (key : string) :
  require_all what names (YDict items) = Ok tt ->
  In key names ->
  exists v, py_getitem (YDict items) key = Ok v /\ lookup key items = Some v.
Proof.
  intros Hall Hin. rewrite require_all_ok in Hall.
  specialize (Hall key Hin). apply py_contains_dict in Hall.
  cbn. destruct (lookup key items) as [v |]; [eauto | now elim Hall].
Qed.

(** X18. On a mapping whose sections, where present, are mappings,
    [_validate_config] fails with [ValueError] only; and when a section is
    missing the error names the first missing section in the order
    repository, monitoring, email, whatever else is wrong. *)
Theorem validate_config_errors (items : list (string * yaml)) :
  (forall section, In section required_sections ->
     forall v, lookup section items = Some v -> exists fields, v = YDict fields) ->
  only_ValueError (_validate_config (YDict items)) /\
  (forall section,
      find (fun name => match lookup name items with
                        | Some _ => false
                        | None => true
                        end) required_sections = Some section ->
      _validate_config (YDict items)
      = Raise (ValueError ("Missing required configuration section: " ++ section))).
Proof.
  intros Hdicts. split.
  - unfold _validate_config.
    apply only_ValueError_rbind; [apply require_all_dict_ValueError |].
    intros [] Hsec.
    destruct (getitem_after_require _ _ _ "repository" Hsec ltac:(cbn; auto))
      as (r & Hr & Hlr).
    destruct (getitem_after_require _ _ _ "monitoring" Hsec ltac:(cbn; auto))
      as (m & Hm & Hlm).
    destruct (getitem_after_require _ _ _ "email" Hsec ltac:(cbn; auto))
      as (e & He & Hle).
    destruct (Hdicts "repository" ltac:(cbn; auto) _ Hlr) as (rf & ->).
    destruct (Hdicts "monitoring" ltac:(cbn; auto) _ Hlm) as (mf & ->).
    destruct (Hdicts "email" ltac:(cbn; auto) _ Hle) as (ef & ->).
    rewrite Hr. cbn [rbind].
    apply only_ValueError_rbind; [apply require_all_dict_ValueError |].
    intros [] _. rewrite Hm. cbn [rbind].
    apply only_ValueError_rbind; [apply require_all_dict_ValueError |].
    intros [] Hmf. rewrite He. cbn [rbind].
    apply only_ValueError_rbind; [apply require_all_dict_ValueError |].
    intros [] Hef.
    destruct (getitem_after_require _ _ _ "issue_threshold_days" Hmf
                ltac:(cbn; auto)) as (v1 & -> & _).
    destruct (getitem_after_require _ _ _ "check_interval_hours" Hmf
                ltac:(cbn; auto)) as (v2 & -> & _).
    destruct (getitem_after_require _ _ _ "pr_lookback_hours" Hmf
                ltac:(cbn; auto)) as (v3 & -> & _).
    destruct (getitem_after_require _ _ _ "smtp_port" Hef
                ltac:(cbn; auto)) as (v4 & -> & _).
    destruct (getitem_after_require _ _ _ "recipients" Hef
                ltac:(cbn; auto 6)) as (v5 & -> & _).
    cbn [rbind].
    repeat (apply only_ValueError_rbind; [apply require_ValueError | intros [] _]).
    apply require_ValueError.
  - intros section Hfind. unfold _validate_config, required_sections in *.
    cbn [find] in Hfind. cbn [require_all py_contains rbind].
    destruct (lookup "repository" items); cbn [rbind];
      [| injection Hfind as <-; reflexivity].
    destruct (lookup "monitoring" items); cbn [rbind];
      [| injection Hfind as <-; reflexivity].
    destruct (lookup "email" items); cbn [rbind];
      [discriminate | injection Hfind as <-; reflexivity].
Qed.

Lemma lookup_replace (f : string -> string) (key : string)
    (items : list (string * yaml)) :
  lookup key (map (fun kv => (fst kv, replace_strings f (snd kv))) items)
  = option_map (replace_strings f) (lookup key items).
Proof.
  induction items as [| [k v] rest IH]; cbn; [reflexivity |].
  destruct (String.eqb k key); [reflexivity | exact IH].
Qed.

Lemma load_config_ok_inv (getenv : string -> option string) (path : string)
    (file_exists : bool) (parsed : Result yaml) (config : yaml) :
  load_config getenv path file_exists parsed = Ok config ->
  exists raw,
    file_exists = true /\
    parsed = Ok raw /\
    (forall s, In s (strings_of raw) -> unresolved getenv s = false) /\
    config = replace_strings (resolve getenv) raw /\
    _validate_config config = Ok tt.
Proof.
  unfold load_config. destruct file_exists; cbn [negb]; [| discriminate].
  intros H. apply rbind_ok in H as (raw & Hparsed & H).
  apply rbind_ok in H as (c & Hsub & H).
  apply rbind_ok in H as ([] & Hval & H). injection H as <-.
  rewrite substitute_env_vars_spec in Hsub.
  destruct (find (unresolved getenv) (strings_of raw)) eqn:Hfind; [discriminate |].
  injection Hsub as <-.
  exists raw. repeat split; auto. apply find_none_iff. exact Hfind.
Qed.

(** X19. [load_config]: a missing file raises [FileNotFoundError] before
    anything is read; a configuration that is returned is the parsed file
    with its placeholders resolved, and it has passed validation in that
    resolved form. Since the environment only provides strings, a file
    that gives [smtp_port] or one of the three monitoring numbers as a
    string, a placeholder included, never loads. *)
Theorem load_config_outcome (getenv : string -> option string) (path : string)
    (file_exists : bool) (parsed : Result yaml) :
  (file_exists = false ->
   load_config getenv path file_exists parsed
   = Raise (FileNotFoundError ("Configuration file not found: " ++ path))) /\
  (forall config,
      load_config getenv path file_exists parsed = Ok config ->
      exists raw,
        file_exists = true /\
        parsed = Ok raw /\
        config = replace_strings (resolve getenv) raw /\
        _validate_config config = Ok tt) /\
  (forall items section fields field s,
      parsed = Ok (YDict items) ->
      lookup section items = Some (YDict fields) ->
      lookup field fields = Some (YStr s) ->
      (section = "email" /\ field = "smtp_port") \/
      (section = "monitoring" /\ In field required_monitoring_fields) ->
      forall config, load_config getenv path file_exists parsed <> Ok config).
Proof.
  split; [intros ->; reflexivity |]. split.
  - intros config H. apply load_config_ok_inv in H
      as (raw & He & Hp & _ & Hc & Hv). exists raw. auto.
  - intros items section fields field s Hparsed Hsec Hfield Hwhich config H.
    apply load_config_ok_inv in H as (raw & _ & Hp & _ & Hc & Hv).
    rewrite Hparsed in Hp. injection Hp as <-.
    apply validate_config_ok_inv in Hv
      as (items' & repository & monitoring & email & threshold & interval &
          lookback & port & recipient & recipients & Hitems & _ & _ & _ & _ &
          Hmon & Hthr & Hthr' & Hint & Hint' & Hlb & Hlb' & Hemail & _ & _ & _ &
          Hport & Hport' & _).
    rewrite Hc in Hitems. cbn [replace_strings] in Hitems.
    injection Hitems as <-.
    rewrite lookup_replace in Hmon, Hemail.
    destruct Hwhich as [[-> ->] | [-> Hin]].
    + rewrite Hsec in Hemail. cbn in Hemail. injection Hemail as <-.
      rewrite lookup_replace, Hfield in Hport. cbn in Hport.
      injection Hport as <-. discriminate.
    + rewrite Hsec in Hmon. cbn in Hmon. injection Hmon as <-.
      rewrite lookup_replace in Hthr, Hint, Hlb.
      destruct Hin as [<- | [<- | [<- | []]]].
      * rewrite Hfield in Hthr. cbn in Hthr. injection Hthr as <-. discriminate.
      * rewrite Hfield in Hint. cbn in Hint. injection Hint as <-. discriminate.
      * rewrite Hfield in Hlb. cbn in Hlb. injection Hlb as <-. discriminate.
Qed.

Lemma substitute_env_vars_without_placeholders_witness :
  let t := config_of (YStr "test-org") (YStr "test-repo") (YStr "token-${VAR}")
             (YInt 7) (YInt 6) (YInt 24) (YStr "smtp.gmail.com") (YInt 587)
             (YStr "me@example.com") (YStr "${") [YStr "you@example.com"] in
  (forall s, In s (strings_of t) -> is_placeholder s = false) /\
  _substitute_env_vars (fun _ => Some "never used") t = Ok t.
Proof.
  cbv zeta.
  assert (H : forall s,
             In s (strings_of
                     (config_of (YStr "test-org") (YStr "test-repo")
                        (YStr "token-${VAR}") (YInt 7) (YInt 6) (YInt 24)
                        (YStr "smtp.gmail.com") (YInt 587)
                        (YStr "me@example.com") (YStr "${")
                        [YStr "you@example.com"])) ->
             is_placeholder s = false).
  { intros s Hin. cbn in Hin.
    repeat (destruct Hin as [<- | Hin]; [reflexivity |]). contradiction. }
  split; [exact H |].
  apply (substitute_env_vars_without_placeholders _ _ H).
Defined.

Lemma substitute_env_vars_settles_witness :
  let getenv := fun name => if String.eqb name "GITHUB_TOKEN"
                            then Some "ghp_example" else None in
  let t := YDict [ ("repository", YDict [ ("token", YStr "${GITHUB_TOKEN}") ]) ] in
  let t' := YDict [ ("repository", YDict [ ("token", YStr "ghp_example") ]) ] in
  (forall name value, getenv name = Some value -> is_placeholder value = false) /\
  _substitute_env_vars getenv t = Ok t' /\
  _substitute_env_vars getenv t' = Ok t'.
Proof.
  cbv zeta.
  assert (H : forall name value,
             (if String.eqb name "GITHUB_TOKEN" then Some "ghp_example" else None)
             = Some value -> is_placeholder value = false).
  { intros name value. destruct (String.eqb name "GITHUB_TOKEN");
      [| discriminate]. intros Hv. injection Hv as <-. reflexivity. }
  split; [exact H |]. split; [reflexivity |].
  exact (proj1 (substitute_env_vars_settles _
                  (YDict [ ("repository", YDict [ ("token", YStr "${GITHUB_TOKEN}") ]) ])
                  (YDict [ ("repository", YDict [ ("token", YStr "ghp_example") ]) ])
                  H eq_refl)).
Defined.

(** Without that condition a second pass can differ from the first: here
    the first resolves to a placeholder that the second cannot resolve. *)
Example substitute_env_vars_single_pass :
  let getenv := fun name => if String.eqb name "A" then Some "${B}" else None in
  _substitute_env_vars getenv (YStr "${A}") = Ok (YStr "${B}") /\
  _substitute_env_vars getenv (YStr "${B}")
  = Raise (ValueError "Environment variable B not found").
Proof. split; reflexivity. Qed.

Lemma validate_config_errors_witness :
  let items := [ ("email", YDict [ ("smtp_port", YStr "587") ]);
                 ("repository", YDict []) ] in
  (forall section, In section required_sections ->
     forall v, lookup section items = Some v -> exists fields, v = YDict fields) /\
  _validate_config (YDict items)
  = Raise (ValueError "Missing required configuration section: monitoring").
Proof.
  cbv zeta.
  assert (H : forall section, In section required_sections ->
              forall v,
                lookup section [ ("email", YDict [ ("smtp_port", YStr "587") ]);
                                 ("repository", YDict []) ] = Some v ->
                exists fields, v = YDict fields).
  { intros section [<- | [<- | [<- | []]]] v Hv; cbn in Hv;
      try discriminate; injection Hv as <-; eauto. }
  split; [exact H |].
  exact (proj2 (validate_config_errors _ H) "monitoring" eq_refl).
Defined.

(** A [repository] section that is a string naming the three fields, or a
    list of them, passes validation; a section that is [None] fails with
    [TypeError], not [ValueError]. *)
Example validate_config_odd_sections :
  _validate_config
    (YDict [ ("repository", YStr "owner name token");
             ("monitoring", YDict [ ("issue_threshold_days", YInt 7);
                                    ("check_interval_hours", YInt 6);
                                    ("pr_lookback_hours", YInt 24) ]);
             ("email", YDict [ ("smtp_host", YNull); ("smtp_port", YInt 587);
                               ("username", YNull); ("password", YNull);
                               ("recipients", YList [YNull]) ]) ]) = Ok tt /\
  _validate_config
    (YDict [ ("repository", YNull); ("monitoring", YDict []); ("email", YDict []) ])
  = Raise (TypeError "argument of type 'NoneType' is not iterable").
Proof. split; reflexivity. Qed.

End ConfigManagerFacts.
